(** * Infinite runner: the game logic of the two canvas pages

    Shallow embedding of the game code of the repository:

    - [Game]     the page component [GamePage] (reset, jump, restart,
                 [rectsCollide], [spawnObstacle], the frame [loop]);
    - [Classics] the second page component [Classics] (its frame [loop]).

    Numbers.  The pages compute with JavaScript numbers.  The embedding takes
    finite numbers as exact rationals ([Q]): sums, products and comparisons are
    the mathematical ones, so rounding of doubles is not part of the model.
    The one place where the code can meet a non-number, the high score read
    from the store, carries [NaN] explicitly ([Js.num]). *)

From Stdlib Require Import QArith Qround Qminmax ZArith Lia Lqa.
From Stdlib Require Import Ascii String DecimalString DecimalPos DecimalN DecimalZ.
From stdpp Require Import base gmap strings list.

Open Scope Q_scope.

(** ** JavaScript numbers and operators *)

Module Js.

(** [a < b], [a > b], [a >= b] on finite numbers. *)
Definition ltb (a b : Q) : bool := negb (Qle_bool b a).
Definition gtb (a b : Q) : bool := ltb b a.
Definition geb (a b : Q) : bool := Qle_bool b a.

(** [Math.floor] and the remainder operator [%] (the quotient is truncated
    towards zero, so the result takes the sign of the dividend). *)
Definition floor (a : Q) : Z := Qfloor a.
Definition trunc (a : Q) : Z := Z.quot (Qnum a) (Zpos (Qden a)).
Definition rem (a b : Q) : Q := a - b * inject_Z (trunc (a / b)).

(** [v || d] on a number: [0] is falsy. *)
Definition or_else (v d : Q) : Q := if Qeq_bool v 0 then d else v.

(** A number that may fail to be finite: what [Number(text)] can return. *)
Inductive num := Fin (q : Q) | PosInf | NegInf | NaN.

(** [a > h] for a finite [a]; every comparison with [NaN] is false. *)
Definition gt_num (a : Q) (h : num) : bool :=
  match h with
  | Fin q => gtb a q
  | PosInf => false
  | NegInf => true
  | NaN => false
  end.

(** [String(n)] for an integer-valued number: its decimal digits (the form
    numbers below [10^21] are printed in). *)
Definition String_of_Z (z : Z) : string := NilZero.string_of_int (Z.to_int z).

(** *** [Number(text)]

    The grammar of numeric strings: optional white space around a signed
    decimal literal (digits, fraction, exponent, or [Infinity]) or an
    unsigned binary, octal or hexadecimal integer; white space alone is
    [0]; everything else is [NaN].

    A text is the UTF-8 encoding of the stored string.  The value of a
    literal is the exact rational it denotes: the code rounds that value to
    the nearest double and gives [Infinity] beyond the largest one, which
    this development, here as in its arithmetic, leaves out.  The two agree
    on every literal whose value is a double, so on every integer of at
    most [2^53] in absolute value. *)

(** The one-byte white space: TAB, LF, VT, FF, CR and the space. *)
Definition is_space (c : ascii) : bool :=
  let n := N_of_ascii c in
  ((9 <=? n) && (n <=? 13) || (n =? 32))%N.

(** The first byte of the white space characters written on several bytes. *)
Definition space_lead (c : ascii) : bool :=
  let n := N_of_ascii c in
  ((n =? 194) || (n =? 225) || (n =? 226) || (n =? 227) || (n =? 239))%N.

(** U+00A0. *)
Definition two_byte_space (c1 c2 : ascii) : bool :=
  ((N_of_ascii c1 =? 194) && (N_of_ascii c2 =? 160))%N.

(** U+1680, U+2000 to U+200A, U+2028, U+2029, U+202F, U+205F, U+3000 and
    U+FEFF. *)
Definition three_byte_space (c1 c2 c3 : ascii) : bool :=
  let n1 := N_of_ascii c1 in
  let n2 := N_of_ascii c2 in
  let n3 := N_of_ascii c3 in
  ((n1 =? 225) && (n2 =? 154) && (n3 =? 128)
   || (n1 =? 226) && (n2 =? 128)
      && ((128 <=? n3) && (n3 <=? 138) || (n3 =? 168) || (n3 =? 169) || (n3 =? 175))
   || (n1 =? 226) && (n2 =? 129) && (n3 =? 159)
   || (n1 =? 227) && (n2 =? 128) && (n3 =? 128)
   || (n1 =? 239) && (n2 =? 187) && (n3 =? 191))%N.

(** The number of bytes of the white space character a text starts with,
    [0] when it starts with none. *)
Definition space_width (s : string) : nat :=
  match s with
  | EmptyString => 0
  | String c r =>
      if is_space c then 1
      else if negb (space_lead c) then 0
      else match r with
           | String c2 r2 =>
               if two_byte_space c c2 then 2
               else match r2 with
                    | String c3 _ => if three_byte_space c c2 c3 then 3 else 0
                    | EmptyString => 0
                    end
           | EmptyString => 0
           end
  end.

Fixpoint drop_bytes (n : nat) (s : string) : string :=
  match n, s with
  | S n', String _ r => drop_bytes n' r
  | _, _ => s
  end.

Fixpoint trim_left_from (fuel : nat) (s : string) : string :=
  match fuel with
  | O => s
  | S fuel' =>
      match space_width s with
      | O => s
      | S w => trim_left_from fuel' (drop_bytes (S w) s)
      end
  end.

(** Each round removes at least one byte, so the length is fuel enough. *)
Definition trim_left (s : string) : string := trim_left_from (String.length s) s.

Definition all_space (s : string) : bool := String.eqb (trim_left s) "".

Definition is_digit (c : ascii) : bool :=
  let n := N_of_ascii c in ((48 <=? n) && (n <=? 57))%N.

Fixpoint trim_right (s : string) : string :=
  match s with
  | String c r => if all_space s then EmptyString else String c (trim_right r)
  | EmptyString => EmptyString
  end.

Definition trim (s : string) : string := trim_right (trim_left s).


Fixpoint all_digits (s : string) : bool :=
  match s with
  | String c r => is_digit c && all_digits r
  | EmptyString => true
  end.

(** The longest prefix of decimal digits, and what follows it. *)
Fixpoint span_digits (s : string) : string * string :=
  match s with
  | String c r =>
      if is_digit c then (String c (span_digits r).1, (span_digits r).2)
      else (EmptyString, s)
  | EmptyString => (EmptyString, EmptyString)
  end.

(** The value of a string of decimal digits ([0] for the empty one). *)
Definition digits_value (s : string) : option N :=
  N.of_uint <$> NilEmpty.uint_of_string s.

Definition nonempty_digits (s : string) : option N :=
  match s with
  | EmptyString => None
  | _ => digits_value s
  end.

(** [ExponentPart], or nothing. *)
Definition exponent (s : string) : option Z :=
  match s with
  | EmptyString => Some 0%Z
  | String c r =>
      if (Ascii.eqb c "e"%char || Ascii.eqb c "E"%char)%bool then
        match r with
        | String "-"%char d => (fun n => (- Z.of_N n)%Z) <$> nonempty_digits d
        | String "+"%char d => Z.of_N <$> nonempty_digits d
        | _ => Z.of_N <$> nonempty_digits r
        end
      else None
  end.

(** [StrUnsignedDecimalLiteral], without [Infinity]. *)
Definition unsigned_decimal (s : string) : option Q :=
  let (ip, r1) := span_digits s in
  let (fp, r2) := match r1 with
                  | String "."%char r => span_digits r
                  | _ => (EmptyString, r1)
                  end in
  let dotted := match r1 with String "."%char _ => true | _ => false end in
  if (String.eqb ip "" && (negb dotted || String.eqb fp ""))%bool then None
  else
    match digits_value ip, digits_value fp, exponent r2 with
    | Some i, Some f, Some e =>
        Some ((inject_Z (Z.of_N i)
               + inject_Z (Z.of_N f) / inject_Z (10 ^ Z.of_nat (String.length fp)))
              * Qpower 10 e)
    | _, _, _ => None
    end.

Definition signed_decimal (s : string) : option num :=
  let (neg, body) := match s with
                     | String "-"%char r => (true, r)
                     | String "+"%char r => (false, r)
                     | _ => (false, s)
                     end in
  if String.eqb body "Infinity" then Some (if neg then NegInf else PosInf)
  else (fun q => Fin (Qred (if neg then - q else q))) <$> unsigned_decimal body.

Definition digit_in_base (b : N) (c : ascii) : option N :=
  let n := N_of_ascii c in
  let v := if is_digit c then Some (n - 48)%N
           else if ((97 <=? n) && (n <=? 102))%N then Some (n - 87)%N
           else if ((65 <=? n) && (n <=? 70))%N then Some (n - 55)%N
           else None in
  v ≫= (fun d => if (d <? b)%N then Some d else None).

Fixpoint digits_in_base (b : N) (acc : N) (s : string) : option N :=
  match s with
  | EmptyString => Some acc
  | String c r => digit_in_base b c ≫= (fun d => digits_in_base b (b * acc + d) r)
  end.

(** [NonDecimalIntegerLiteral] *)
Definition non_decimal (s : string) : option num :=
  match s with
  | String "0"%char (String p (String c r)) =>
      let base := if (Ascii.eqb p "x"%char || Ascii.eqb p "X"%char)%bool then Some 16%N
                  else if (Ascii.eqb p "o"%char || Ascii.eqb p "O"%char)%bool then Some 8%N
                  else if (Ascii.eqb p "b"%char || Ascii.eqb p "B"%char)%bool then Some 2%N
                  else None in
      base ≫= (fun b => (fun n => Fin (inject_Z (Z.of_N n)))
                           <$> digits_in_base b 0 (String c r))
  | _ => None
  end.

Definition Number_of_string (s : string) : num :=
  let t := trim s in
  if String.eqb t "" then Fin 0
  else match signed_decimal t with
       | Some n => n
       | None => default NaN (non_decimal t)
       end.

End Js.

(** ** The page component [GamePage] *)

Module Rect.
Record t := mk { x : Q; y : Q; width : Q; height : Q }.
End Rect.

Module Player.
Record t := mk { x : Q; y : Q; vy : Q; width : Q; height : Q; grounded : bool }.
End Player.

Module Obstacle.
Record t := mk { x : Q; y : Q; width : Q; height : Q }.
End Obstacle.

(** [config] *)
Module Config.
Definition gravity : Q := 2000.
Definition groundHeight : Q := 96.
Definition player_w : Q := 44.
Definition player_h : Q := 44.
Definition player_startX : Q := 80.
Definition player_startYOffset : Q := 0.
Definition obstacleMinGap : Q := 360.
Definition obstacleMaxGap : Q := 700.
Definition obstacleSpeedStart : Q := 480.
Definition obstacleAcceleration : Q := 20.
Definition spawnEarlyTime : Q := 1200.
End Config.

(** The object held in [gameStateRef].  [score] starts at [0] and only ever
    grows by a [Math.floor], so it is an integer. *)
Module State.
Record t := mk {
  player : Player.t;
  obstacles : list Obstacle.t;
  lastSpawnX : Q;
  speed : Q;
  score : Z;
  running : bool;
  groundOffset : Q
}.
End State.

(** The 2D context: the calls the pages make on it. *)
Module Canvas.

Inductive Style :=
| Color (css : string)
| LinearGradient (x0 y0 x1 y1 : Q) (stops : list (Q * string)).

(** The text of a [fillText]: a literal, or one of the two templates. *)
Inductive Text :=
| Literal (s : string)
| ScoreLabel (score : Z)
| HighLabel (highScore : Js.num).

(** The calls made on the 2D context.  The angles of [Arc] are in units
    of [Math.PI]. *)
Inductive DrawCmd :=
| ClearRect (x y w h : Q)
| FillStyle (s : Style)
| FillRect (x y w h : Q)
| BeginPath
| Arc (x y r : Q) (start_pi end_pi : Q)
| Fill
| Save
| Translate (x y : Q)
| Restore
| Font (css : string)
| FillText (t : Text) (x y : Q).

End Canvas.

Module Game.

Import Canvas.

(** [rectsCollide(a, b)]: the negation of the four separation tests. *)
Definition rectsCollide (a b : Rect.t) : bool :=
  negb (Js.ltb (Rect.x a + Rect.width a) (Rect.x b)
        || Js.gtb (Rect.x a) (Rect.x b + Rect.width b)
        || Js.ltb (Rect.y a + Rect.height a) (Rect.y b)
        || Js.gtb (Rect.y a) (Rect.y b + Rect.height b)).

(** What the browser provides to a frame: the canvas size in device pixels
    and [window.devicePixelRatio]. *)
Record Env := mkEnv { canvas_width : Q; canvas_height : Q; devicePixelRatio : Q }.

(** [window.devicePixelRatio || 1] *)
Definition dpr (env : Env) : Q := Js.or_else (devicePixelRatio env) 1.

(** The three [Math.random()] results one call of [spawnObstacle] consumes,
    in the order of the calls: gap, height, width. *)
Record Random3 := mkRandom { rnd_gap : Q; rnd_height : Q; rnd_width : Q }.

Definition unit_interval (r : Q) : Prop := 0 <= r /\ r < 1.

(** The cells of the component: the [useState] cells [running], [score],
    [highScore], [paused], the refs [lastTimeRef] and [gameStateRef]
    ([None] is [null]), and [localStorage]. *)
Record World := mkWorld {
  running : bool;
  score : Z;
  highScore : Js.num;
  paused : bool;
  lastTimeRef : Q;
  gameStateRef : option State.t;
  localStorage : gmap string string
}.

(** The effect that defines [loop] runs at mount and when [paused] changes;
    [loop] reads [paused], [score] and [highScore] as they were in that
    render. *)
Record Closure := mkClosure { c_paused : bool; c_score : Z; c_highScore : Js.num }.

Definition capture (w : World) : Closure :=
  mkClosure (paused w) (score w) (highScore w).

Definition resetGameState : State.t :=
  State.mk
    (Player.mk Config.player_startX 0 0 Config.player_w Config.player_h false)
    [] 0 Config.obstacleSpeedStart 0%Z true 0.

Definition jump_impulse : Q := -820.

(** [jump()] *)
Definition jump (w : World) : World :=
  match gameStateRef w with
  | None => w
  | Some state =>
      if negb (State.running state) then w
      else
        let p := State.player state in
        if Player.grounded p then
          let p' := Player.mk (Player.x p) (Player.y p) jump_impulse
                      (Player.width p) (Player.height p) false in
          let state' := State.mk p' (State.obstacles state) (State.lastSpawnX state)
                          (State.speed state) (State.score state)
                          (State.running state) (State.groundOffset state) in
          mkWorld (running w) (score w) (highScore w) (paused w) (lastTimeRef w)
            (Some state') (localStorage w)
        else w
  end.

(** [restart()] *)
Definition restart (w : World) : World :=
  mkWorld true 0%Z (highScore w) (paused w) 0 (Some resetGameState) (localStorage w).

(** [togglePause()] *)
Definition togglePause (w : World) : World :=
  mkWorld (running w) (score w) (highScore w) (negb (paused w)) (lastTimeRef w)
    (gameStateRef w) (localStorage w).

(** [spawnObstacle(canvasW)]: the gap drawn, then the state with the new
    obstacle pushed.  [lastX] is computed by the code and never used. *)
Definition spawn_gap (rnd : Random3) : Q :=
  Config.obstacleMinGap + rnd_gap rnd * (Config.obstacleMaxGap - Config.obstacleMinGap).

Definition new_obstacle (canvasW : Q) (rnd : Random3) : Obstacle.t :=
  let gap := spawn_gap rnd in
  let x := canvasW + gap in
  let h := 36 + rnd_height rnd * 64 in
  Obstacle.mk x (canvasW * 0 + 0) (28 + rnd_width rnd * 48) h.

Definition spawnObstacle (canvasW : Q) (rnd : Random3) (state : State.t) : State.t :=
  let obstacle := new_obstacle canvasW rnd in
  State.mk (State.player state) (State.obstacles state ++ [obstacle])
    (Obstacle.x obstacle) (State.speed state) (State.score state)
    (State.running state) (State.groundOffset state).

(** *** The update half of [loop] *)

(** [groundY]: the value of [p.y] at which the player stands on the ground. *)
Definition groundY (env : Env) (p : Player.t) : Q :=
  canvas_height env / dpr env - Config.groundHeight - Player.height p
  + Config.player_startYOffset.

(** Gravity, then the clamp to the ground. *)
Definition integrate_vy (dt : Q) (p : Player.t) : Q :=
  Player.vy p + Config.gravity * dt.

Definition integrate_y (dt : Q) (p : Player.t) : Q :=
  Player.y p + integrate_vy dt p * dt.

Definition step_player (env : Env) (dt : Q) (p : Player.t) : Player.t :=
  if Js.geb (integrate_y dt p) (groundY env p) then
    Player.mk (Player.x p) (groundY env p) 0 (Player.width p) (Player.height p) true
  else
    Player.mk (Player.x p) (integrate_y dt p) (integrate_vy dt p)
      (Player.width p) (Player.height p) (Player.grounded p).

Definition move_obstacle (d : Q) (o : Obstacle.t) : Obstacle.t :=
  Obstacle.mk (Obstacle.x o - d) (Obstacle.y o) (Obstacle.width o) (Obstacle.height o).

Definition on_screen (o : Obstacle.t) : bool :=
  Js.gtb (Obstacle.x o + Obstacle.width o) (-100).

(** [obstacles.length === 0 || lastX < canvas.width - config.spawnEarlyTime],
    where [lastX] is [-Infinity] for the empty array. *)
Definition should_spawn (env : Env) (obstacles : list Obstacle.t) : bool :=
  (length obstacles =? 0)%nat
  || match last obstacles with
     | Some o => Js.ltb (Obstacle.x o) (canvas_width env - Config.spawnEarlyTime)
     | None => true
     end.

Definition score_gain (speed dt : Q) : Z := Js.floor (speed * dt * 0.05).

(** Everything [loop] does to the state object before collision detection. *)
Definition physics (env : Env) (dt : Q) (rnd : Random3) (state : State.t) : State.t :=
  let p := step_player env dt (State.player state) in
  let moved := map (move_obstacle (State.speed state * dt)) (State.obstacles state) in
  let speed := State.speed state + Config.obstacleAcceleration * dt in
  let kept := List.filter on_screen moved in
  let state1 := State.mk p kept (State.lastSpawnX state) speed (State.score state)
                  (State.running state) (State.groundOffset state) in
  let state2 := if should_spawn env kept
                then spawnObstacle (canvas_width env) rnd state1 else state1 in
  State.mk (State.player state2) (State.obstacles state2) (State.lastSpawnX state2)
    speed (State.score state2 + score_gain speed dt)%Z (State.running state2)
    (Js.rem (State.groundOffset state2 + speed * dt) 60).

Definition playerRect (p : Player.t) : Rect.t :=
  Rect.mk (Player.x p) (Player.y p) (Player.width p) (Player.height p).

Definition obstacleRect (env : Env) (o : Obstacle.t) : Rect.t :=
  Rect.mk (Obstacle.x o)
    (canvas_height env / dpr env - Config.groundHeight - Obstacle.height o)
    (Obstacle.width o) (Obstacle.height o).

Definition hits (env : Env) (p : Player.t) (o : Obstacle.t) : bool :=
  rectsCollide (playerRect p) (obstacleRect env o).

Definition highscore_key : string := "classic-highscore".

(** The initialiser of the [highScore] cell:
    [Number(localStorage.getItem('classic-highscore') || 0)] in the browser,
    [0] where there is no [window].  [getItem] returns [null] for a key
    that is not stored; [null] and the empty string are falsy. *)
Definition initial_highScore (has_window : bool) (store : gmap string string)
  : Js.num :=
  if has_window then
    match store !! highscore_key with
    | None => Js.Fin 0
    | Some text => if String.eqb text "" then Js.Fin 0 else Js.Number_of_string text
    end
  else Js.Fin 0.

(** [localStorage.setItem(k, v)] inside [try { } catch (e) {}]: when the
    call throws nothing is stored and nothing escapes. *)
Definition try_setItem (ok : bool) (k v : string) (store : gmap string string)
  : gmap string string :=
  if ok then <[k := v]> store else store.

(** The body of [if (rectsCollide(playerRect, obstacleRect))]. *)
Definition game_over (cl : Closure) (ok : bool) (sw : State.t * World)
  : State.t * World :=
  let state := sw.1 in
  let w := sw.2 in
  let state' := State.mk (State.player state) (State.obstacles state)
                  (State.lastSpawnX state) (State.speed state) (State.score state)
                  false (State.groundOffset state) in
  if Js.gt_num (inject_Z (State.score state)) (c_highScore cl) then
    (state',
     mkWorld false (score w) (Js.Fin (inject_Z (State.score state))) (paused w)
       (lastTimeRef w) (gameStateRef w)
       (try_setItem ok highscore_key (Js.String_of_Z (State.score state))
          (localStorage w)))
  else
    (state',
     mkWorld false (score w) (highScore w) (paused w) (lastTimeRef w)
       (gameStateRef w) (localStorage w)).

(** The [for] loop over [state.obstacles]; no [break]. *)
Definition detect (env : Env) (cl : Closure) (ok : bool) (sw : State.t * World)
  : State.t * World :=
  fold_left
    (fun acc o => if hits env (State.player sw.1) o then game_over cl ok acc else acc)
    (State.obstacles sw.1) sw.

(** [if (state.score > score) setScore(state.score)] *)
Definition publish_score (cl : Closure) (state : State.t) (w : World) : World :=
  if (State.score state >? c_score cl)%Z then
    mkWorld (running w) (State.score state) (highScore w) (paused w) (lastTimeRef w)
      (gameStateRef w) (localStorage w)
  else w.

(** What one frame receives from outside: the timestamp, the random numbers
    a spawn would draw, and whether [localStorage.setItem] succeeds. *)
Record Frame := mkFrame { timestamp : Q; random : Random3; setItem_ok : bool }.

(** The body of [if (!paused && state.running)]. *)
Definition update (env : Env) (cl : Closure) (fr : Frame) (dt : Q)
    (state : State.t) (w : World) : State.t * World :=
  let state1 := physics env dt (random fr) state in
  detect env cl (setItem_ok fr) (state1, publish_score cl state1 w).

(** [dt]: [Math.min(40, timestamp - lastTimeRef.current) / 1000], after a
    zero [lastTimeRef.current] has been replaced by the timestamp. *)
Definition frame_dt (ts last : Q) : Q :=
  let last := if Qeq_bool last 0 then ts else last in
  Qmin 40 (ts - last) / 1000.

(** *** The draw half of [loop] *)

Definition vw (env : Env) : Q := canvas_width env / dpr env.
Definition vh (env : Env) : Q := canvas_height env / dpr env.
Definition groundTop (env : Env) : Q := vh env - Config.groundHeight.

(** [for (let x = -60; x < vw + 60; x += 60)]: the loop runs for
    [x = -60 + 60 k] with [k] below [strip_count]. *)
Definition strip_count (env : Env) : nat :=
  Z.to_nat (Qceiling ((vw env + 120) / 60)).

Definition strip_x (k : nat) : Q := -60 + 60 * inject_Z (Z.of_nat k).

Definition draw_strip (env : Env) (k : nat) : list DrawCmd :=
  [ FillStyle (Color "rgba(255,255,255,0.04)");
    FillRect (strip_x k) (groundTop env + 18) 40 8 ].

Definition draw_background (env : Env) (state : State.t) : list DrawCmd :=
  [ ClearRect 0 0 (canvas_width env) (canvas_height env);
    FillStyle (LinearGradient 0 0 0 (vh env) [(0, "#8fd3f4"); (1, "#a8e6ff")]);
    FillRect 0 0 (vw env) (vh env);
    BeginPath;
    Arc (vw env - 80) 80 36 0 2;
    FillStyle (Color "rgba(255, 240, 120, 0.95)");
    Fill;
    FillStyle (Color "#6b8e23");
    FillRect 0 (groundTop env) (vw env) Config.groundHeight;
    Save;
    Translate (- State.groundOffset state) 0 ]
  ++ concat (map (draw_strip env) (seq 0 (strip_count env)))
  ++ [ Restore ].

Definition playerY (env : Env) (p : Player.t) : Q :=
  if Qeq_bool (Player.y p) 0
  then vh env - Config.groundHeight - Player.height p
  else Player.y p.

Definition draw_player (env : Env) (p : Player.t) : list DrawCmd :=
  let py := playerY env p in
  [ FillStyle (Color "#222222");
    FillRect (Player.x p) py (Player.width p) (Player.height p);
    FillStyle (Color "#fff");
    FillRect (Player.x p + 8) (py + 12) 6 6;
    FillRect (Player.x p + Player.width p - 14) (py + 12) 6 6;
    FillStyle (Color "#ff6666");
    FillRect (Player.x p + 10) (py + Player.height p - 12) (Player.width p - 20) 6 ].

Definition draw_obstacle (env : Env) (o : Obstacle.t) : list DrawCmd :=
  let ox := Obstacle.x o in
  let oy := vh env - Config.groundHeight - Obstacle.height o in
  [ FillStyle (Color "#8b4513");
    FillRect ox oy (Obstacle.width o) (Obstacle.height o);
    FillStyle (Color "rgba(255,255,255,0.06)");
    FillRect (ox + 4) (oy + 4) (Obstacle.width o - 8) 6 ].

Definition dquote : string := String (Ascii.ascii_of_nat 34) EmptyString.

Definition ui_font : string :=
  String.concat dquote
    [ "20px ui-sans-serif, system-ui, -apple-system, "; "Segoe UI"; ", Roboto, ";
      "Helvetica Neue"; ", Arial" ].

Definition draw_ui (cl : Closure) : list DrawCmd :=
  [ Font ui_font;
    FillStyle (Color "#082032");
    FillText (ScoreLabel (c_score cl)) 16 32;
    FillText (HighLabel (c_highScore cl)) 16 58 ].

Definition draw_overlay (env : Env) : list DrawCmd :=
  [ FillStyle (Color "rgba(0,0,0,0.45)");
    FillRect 0 0 (vw env) (vh env);
    FillStyle (Color "#fff");
    Font "36px ui-sans-serif";
    FillText (Literal "Game Over") (vw env / 2 - 90) (vh env / 2 - 20);
    Font "18px ui-sans-serif";
    FillText (Literal "Press R to restart") (vw env / 2 - 86) (vh env / 2 + 18) ].

(** Everything [loop] does with [ctx] in one frame. *)
Definition draw (env : Env) (cl : Closure) (state : State.t) : list DrawCmd :=
  draw_background env state
  ++ draw_player env (State.player state)
  ++ concat (map (draw_obstacle env) (State.obstacles state))
  ++ draw_ui cl
  ++ (if negb (State.running state) then draw_overlay env else []).

(** *** [loop(timestamp)]

    One animation frame: the new cells of the component and the frame that
    was painted.  The next frame is always requested. *)
Definition loop (env : Env) (cl : Closure) (fr : Frame) (w : World)
  : World * list DrawCmd :=
  let dt := frame_dt (timestamp fr) (lastTimeRef w) in
  let state := default resetGameState (gameStateRef w) in
  let w1 := mkWorld (running w) (score w) (highScore w) (paused w) (timestamp fr)
              (Some state) (localStorage w) in
  let sw := if negb (c_paused cl) && State.running state
            then update env cl fr dt state w1
            else (state, w1) in
  (mkWorld (running sw.2) (score sw.2) (highScore sw.2) (paused sw.2)
     (lastTimeRef sw.2) (Some sw.1) (localStorage sw.2),
   draw env cl sw.1).

(** *** The component over time

    What can happen to a mounted page: an animation frame, the jump key or
    a touch, [R], [P].  Toggling [paused] re-runs the effect, so the new
    [loop] closes over the cells as they are then. *)
Inductive Event :=
| Tick (env : Env) (fr : Frame)
| Jump
| Restart
| TogglePause.

Definition step (ev : Event) (wc : World * Closure) : World * Closure :=
  match ev with
  | Tick env fr => ((loop env wc.2 fr wc.1).1, wc.2)
  | Jump => (jump wc.1, wc.2)
  | Restart => (restart wc.1, wc.2)
  | TogglePause => (togglePause wc.1, capture (togglePause wc.1))
  end.

Definition run (evs : list Event) (wc : World * Closure) : World * Closure :=
  fold_left (fun acc ev => step ev acc) evs wc.

(** The page as first rendered in a browser with the given store. *)
Definition mount (store : gmap string string) : World * Closure :=
  let w := mkWorld true 0%Z (initial_highScore true store) false 0
             (Some resetGameState) store in
  (w, capture w).

(** Frame timestamps never run backwards. *)
Fixpoint timely (last : Q) (evs : list Event) : Prop :=
  match evs with
  | [] => True
  | Tick _ fr :: evs' => last <= timestamp fr /\ timely (timestamp fr) evs'
  | Restart :: evs' => timely 0 evs'
  | _ :: evs' => timely last evs'
  end.

(** The time the frame clock shows after the events. *)
Fixpoint clock (last : Q) (evs : list Event) : Q :=
  match evs with
  | [] => last
  | Tick _ fr :: evs' => clock (timestamp fr) evs'
  | Restart :: evs' => clock 0 evs'
  | _ :: evs' => clock last evs'
  end.

Definition is_restart (ev : Event) : bool :=
  match ev with Restart => true | _ => false end.

Definition is_toggle (ev : Event) : bool :=
  match ev with TogglePause => true | _ => false end.

(** Score and speed of the session in progress. *)
Definition session_score (wc : World * Closure) : Z :=
  State.score (default resetGameState (gameStateRef wc.1)).

Definition session_speed (wc : World * Closure) : Q :=
  State.speed (default resetGameState (gameStateRef wc.1)).

(** *** [resize()]

    Assigning the number [v] to [canvas.width] or [canvas.height]: the
    attribute is an unsigned long, so the value is taken modulo [2^32], and
    a result above [2^31 - 1] is replaced by the attribute's default. *)
Definition set_canvas_size (default v : Z) : Q :=
  let u := (v mod 2 ^ 32)%Z in
  inject_Z (if (u <=? 2147483647)%Z then u else default).

(** The canvas backing store for a client box and a device pixel ratio;
    the defaults are 300 for the width and 150 for the height. *)
Definition resize (clientWidth clientHeight devicePixelRatio : Q) : Env :=
  let dpr := Js.or_else devicePixelRatio 1 in
  let w := inject_Z (Js.floor clientWidth) in
  let h := inject_Z (Js.floor clientHeight) in
  mkEnv (set_canvas_size 300 (Z.max 320 (Js.floor (w * dpr))))
    (set_canvas_size 150 (Z.max 240 (Js.floor (h * dpr))))
    devicePixelRatio.

(** *** The input handlers

    A key event carries [e.code] and [e.key].  The three tests of
    [handleKey] are separate [if]s; the flag returned says whether
    [e.preventDefault()] was called. *)
Record KeyEvent := mkKey { code : string; key : string }.

Definition handleKey (e : KeyEvent) (wc : World * Closure) : (World * Closure) * bool :=
  let jumps := String.eqb (code e) "Space" || String.eqb (code e) "ArrowUp" in
  let wc1 := if jumps then step Jump wc else wc in
  let wc2 := if String.eqb (key e) "r" || String.eqb (key e) "R"
             then step Restart wc1 else wc1 in
  let wc3 := if String.eqb (key e) "p" || String.eqb (key e) "P"
             then step TogglePause wc2 else wc2 in
  (wc3, jumps).

Definition handleTouch (wc : World * Closure) : World * Closure := step Jump wc.

(** Whether a context call writes the words of the game-over panel. *)
Definition shows_game_over (c : DrawCmd) : bool :=
  match c with
  | FillText (Literal s) _ _ => String.eqb s "Game Over"
  | _ => false
  end.

(** *** Invariants of a run *)

(** The cells a session that is over keeps. *)
Definition frozen (st : State.t) (w0 : World) (wc : World * Closure) : Prop :=
  gameStateRef wc.1 = Some st
  /\ running wc.1 = running w0
  /\ score wc.1 = score w0
  /\ highScore wc.1 = highScore w0
  /\ localStorage wc.1 = localStorage w0.

(** The run flag of the component is the run flag of its session. *)
Definition flags_agree (wc : World * Closure) : Prop :=
  exists st, gameStateRef wc.1 = Some st /\ running wc.1 = State.running st.

(** The player keeps its column and its size. *)
Definition player_shape (wc : World * Closure) : Prop :=
  exists st, gameStateRef wc.1 = Some st
             /\ Player.x (State.player st) = Config.player_startX
             /\ Player.width (State.player st) = Config.player_w
             /\ Player.height (State.player st) = Config.player_h.

End Game.

(** ** The page component [Classics] *)

Module Classics.

Import Canvas.

(** [window.innerWidth] and [window.innerHeight] when the effect runs. *)
Record Env := mkEnv { innerWidth : Q; innerHeight : Q }.

Definition width (env : Env) : Q := innerWidth env.
Definition height (env : Env) : Q := innerHeight env * 0.8.

Record PlayerC := mkPlayer {
  x : Q; y : Q; p_width : Q; p_height : Q; dy : Q; gravity : Q
}.

(** The variables of the effect ([player], [obstacles], [gameSpeed],
    [frame], [running]) and the [useState] cells [score] and [isJumping]. *)
Record World := mkWorld {
  player : PlayerC;
  obstacles : list Obstacle.t;
  gameSpeed : Q;
  frame : nat;
  running : bool;
  score : Z;
  isJumping : bool
}.

(** The variables as the effect initialises them. *)
Definition start (env : Env) (score : Z) (isJumping : bool) : World :=
  mkWorld (mkPlayer 50 (height env - 80) 50 50 0 1) [] 6 0 true score isJumping.

Definition spawnObstacle (env : Env) (rnd : Q) : Obstacle.t :=
  Obstacle.mk (width env) (height env - 50) (40 + rnd * 20) 40.

(** The collision test written out in the [forEach] callback. *)
Definition overlaps (p : PlayerC) (o : Obstacle.t) : bool :=
  Js.ltb (x p) (Obstacle.x o + Obstacle.width o)
  && Js.gtb (x p + p_width p) (Obstacle.x o)
  && Js.ltb (y p) (Obstacle.y o + Obstacle.height o)
  && Js.gtb (y p + p_height p) (Obstacle.y o).

Definition off_left (o : Obstacle.t) : bool :=
  Js.ltb (Obstacle.x o + Obstacle.width o) 0.

Definition moved (speed : Q) (o : Obstacle.t) : Obstacle.t :=
  Obstacle.mk (Obstacle.x o - speed) (Obstacle.y o) (Obstacle.width o)
    (Obstacle.height o).

(** The [forEach] callback on the element [o] found at index [i]: the
    object is moved in place and drawn, a hit stops the game, and an
    obstacle left of the screen is spliced out and scored. *)
Definition visit (i : nat) (o : Obstacle.t) (acc : World * list DrawCmd)
  : World * list DrawCmd :=
  let w := acc.1 in
  let o' := moved (gameSpeed w) o in
  let cmds := acc.2 ++ [ FillRect (Obstacle.x o') (Obstacle.y o')
                           (Obstacle.width o') (Obstacle.height o') ] in
  let running' := if overlaps (player w) o' then false else running w in
  let obstacles' := <[i := o']> (obstacles w) in
  if off_left o' then
    (mkWorld (player w) (delete i obstacles') (gameSpeed w) (frame w) running'
       (score w + 1)%Z (isJumping w), cmds)
  else
    (mkWorld (player w) obstacles' (gameSpeed w) (frame w) running'
       (score w) (isJumping w), cmds).

(** [obstacles.forEach(...)]: the indices [k], [k+1], ... below the length
    the array had when the call started, each visited if it still exists. *)
Fixpoint forEach_from (k count : nat) (acc : World * list DrawCmd)
  : World * list DrawCmd :=
  match count with
  | O => acc
  | S count' =>
      forEach_from (S k) count'
        match obstacles acc.1 !! k with
        | Some o => visit k o acc
        | None => acc
        end
  end.

Definition forEach (acc : World * list DrawCmd) : World * list DrawCmd :=
  forEach_from 0 (length (obstacles acc.1)) acc.

(** The player part of [loop]: the move, gravity and the landing. *)
Definition step_player (env : Env) (w : World) : World :=
  let p := player w in
  let y1 := y p + dy p in
  let dy1 := dy p + gravity p in
  if Js.gtb y1 (height env - 80) then
    mkWorld (mkPlayer (x p) (height env - 80) (p_width p) (p_height p) 0 (gravity p))
      (obstacles w) (gameSpeed w) (frame w) (running w) (score w) false
  else
    mkWorld (mkPlayer (x p) y1 (p_width p) (p_height p) dy1 (gravity p))
      (obstacles w) (gameSpeed w) (frame w) (running w) (score w) (isJumping w).

(** [if (frame % 100 === 0) spawnObstacle()] *)
Definition maybe_spawn (env : Env) (rnd : Q) (w : World) : World :=
  if (frame w mod 100 =? 0)%nat then
    mkWorld (player w) (obstacles w ++ [spawnObstacle env rnd]) (gameSpeed w)
      (frame w) (running w) (score w) (isJumping w)
  else w.

(** [loop()]: one frame.  A stopped game returns at once: nothing is drawn
    and no further frame is requested. *)
Definition loop (env : Env) (rnd : Q) (w : World) : World * list DrawCmd :=
  if negb (running w) then (w, [])
  else
    let w1 := step_player env w in
    let p := player w1 in
    let cmds := [ ClearRect 0 0 (width env) (height env);
                  FillStyle (Color "#4ade80");
                  FillRect (x p) (y p) (p_width p) (p_height p);
                  FillStyle (Color "#444");
                  FillRect 0 (height env - 30) (width env) 30 ] in
    let w2 := maybe_spawn env rnd w1 in
    let r := forEach (w2, cmds ++ [ FillStyle (Color "#ef4444") ]) in
    (mkWorld (player r.1) (obstacles r.1) (gameSpeed r.1) (S (frame r.1))
       (running r.1) (score r.1) (isJumping r.1), r.2).

(** [jump()], with the [isJumping] the effect closed over. *)
Definition jump (env : Env) (c_isJumping : bool) (w : World) : World :=
  if negb c_isJumping && Js.geb (y (player w)) (height env - 80) then
    let p := player w in
    mkWorld (mkPlayer (x p) (y p) (p_width p) (p_height p) (-18) (gravity p))
      (obstacles w) (gameSpeed w) (frame w) (running w) (score w) true
  else w.

(** *** The obstacle pass as a function of the array

    What [forEach] with its [splice] comes to: an obstacle that is not left
    of the screen after its move is moved; one that is, is removed, and then
    the obstacle behind it is stepped over, as it is in the array. *)
Fixpoint swept (speed : Q) (l : list Obstacle.t) : list Obstacle.t :=
  match l with
  | [] => []
  | o :: rest =>
      if off_left (moved speed o) then
        match rest with
        | [] => []
        | o2 :: rest' => o2 :: swept speed rest'
        end
      else moved speed o :: swept speed rest
  end.

(** How many obstacles the pass removes. *)
Fixpoint removed (speed : Q) (l : list Obstacle.t) : nat :=
  match l with
  | [] => 0
  | o :: rest =>
      if off_left (moved speed o) then
        S match rest with
          | [] => 0
          | _ :: rest' => removed speed rest'
          end
      else removed speed rest
  end.

(** Whether an obstacle the pass looks at overlaps the player. *)
Fixpoint struck (p : PlayerC) (speed : Q) (l : list Obstacle.t) : bool :=
  match l with
  | [] => false
  | o :: rest =>
      overlaps p (moved speed o)
      || if off_left (moved speed o) then
           match rest with
           | [] => false
           | _ :: rest' => struck p speed rest'
           end
         else struck p speed rest
  end.

(** Score plus obstacles on the array: what splicing keeps constant. *)
Definition tally (acc : World * list DrawCmd) : Z :=
  (score acc.1 + Z.of_nat (length (obstacles acc.1)))%Z.

End Classics.

(** * Properties *)

(** ** Comparisons *)

Module JsFacts.

Import Js.

Lemma ltb_lt a b : ltb a b = true <-> a < b.
Proof.
  unfold ltb. rewrite negb_true_iff, <- not_true_iff_false, Qle_bool_iff.
  split; [apply Qnot_le_lt | apply Qlt_not_le].
Qed.

Lemma ltb_ge a b : ltb a b = false <-> b <= a.
Proof. unfold ltb. rewrite negb_false_iff. apply Qle_bool_iff. Qed.

Lemma gtb_gt a b : gtb a b = true <-> b < a.
Proof. apply ltb_lt. Qed.

Lemma gtb_le a b : gtb a b = false <-> a <= b.
Proof. apply ltb_ge. Qed.

Lemma geb_ge a b : geb a b = true <-> b <= a.
Proof. apply Qle_bool_iff. Qed.

Lemma geb_lt a b : geb a b = false <-> a < b.
Proof.
  unfold geb. rewrite <- not_true_iff_false, Qle_bool_iff.
  split; [apply Qnot_le_lt | apply Qlt_not_le].
Qed.

End JsFacts.

(** ** Collision tests *)

Section Collision.

(** [rectsCollide] holds exactly when neither rectangle lies strictly
    beyond the other on an axis: shared edges count as a collision. *)
Lemma rectsCollide_iff (a b : Rect.t) :
  Game.rectsCollide a b = true <->
  Rect.x b <= Rect.x a + Rect.width a /\ Rect.x a <= Rect.x b + Rect.width b /\
  Rect.y b <= Rect.y a + Rect.height a /\ Rect.y a <= Rect.y b + Rect.height b.
Proof.
  unfold Game.rectsCollide.
  rewrite negb_true_iff, !orb_false_iff, !JsFacts.ltb_ge, !JsFacts.gtb_le.
  tauto.
Qed.

(** The test written out in the second page is the strict one. *)
Lemma overlaps_iff (p : Classics.PlayerC) (o : Obstacle.t) :
  Classics.overlaps p o = true <->
  Classics.x p < Obstacle.x o + Obstacle.width o /\
  Obstacle.x o < Classics.x p + Classics.p_width p /\
  Classics.y p < Obstacle.y o + Obstacle.height o /\
  Obstacle.y o < Classics.y p + Classics.p_height p.
Proof.
  unfold Classics.overlaps.
  rewrite !andb_true_iff, !JsFacts.ltb_lt, !JsFacts.gtb_gt.
  tauto.
Qed.

End Collision.

(** C1, as the code has it.  [rectsCollide] returns true iff the closed
    rectangles meet: positive overlap on both axes gives true, a positive gap
    on either axis gives false, and rectangles that only touch (an edge of one
    equal to the facing edge of the other) give true.  The inline test of the
    second page returns true iff the overlap is positive on both axes, so it
    is false for rectangles that only touch. *)
Theorem collision_tests_characterised :
  (forall a b : Rect.t,
      Game.rectsCollide a b = true <->
      Rect.x b <= Rect.x a + Rect.width a /\ Rect.x a <= Rect.x b + Rect.width b /\
      Rect.y b <= Rect.y a + Rect.height a /\ Rect.y a <= Rect.y b + Rect.height b)
  /\ (forall a b : Rect.t,
         Rect.x b < Rect.x a + Rect.width a /\ Rect.x a < Rect.x b + Rect.width b /\
         Rect.y b < Rect.y a + Rect.height a /\ Rect.y a < Rect.y b + Rect.height b ->
         Game.rectsCollide a b = true)
  /\ (forall a b : Rect.t,
         Rect.x a + Rect.width a < Rect.x b \/ Rect.x b + Rect.width b < Rect.x a \/
         Rect.y a + Rect.height a < Rect.y b \/ Rect.y b + Rect.height b < Rect.y a ->
         Game.rectsCollide a b = false)
  /\ (forall a b : Rect.t,
         Rect.x a + Rect.width a == Rect.x b ->
         Rect.y b <= Rect.y a + Rect.height a -> Rect.y a <= Rect.y b + Rect.height b ->
         0 <= Rect.width a -> 0 <= Rect.width b ->
         Game.rectsCollide a b = true)
  /\ (forall (p : Classics.PlayerC) (o : Obstacle.t),
         Classics.overlaps p o = true <->
         Classics.x p < Obstacle.x o + Obstacle.width o /\
         Obstacle.x o < Classics.x p + Classics.p_width p /\
         Classics.y p < Obstacle.y o + Obstacle.height o /\
         Obstacle.y o < Classics.y p + Classics.p_height p)
  /\ (forall (p : Classics.PlayerC) (o : Obstacle.t),
         Classics.x p + Classics.p_width p == Obstacle.x o ->
         Classics.overlaps p o = false).
Proof.
  split; [exact rectsCollide_iff|].
  split.
  { intros a b (H1 & H2 & H3 & H4). apply rectsCollide_iff.
    repeat split; apply Qlt_le_weak; assumption. }
  split.
  { intros a b H. apply not_true_is_false. rewrite rectsCollide_iff.
    intros (H1 & H2 & H3 & H4).
    destruct H as [H | [H | [H | H]]];
      eapply Qlt_irrefl, Qlt_le_trans; eauto. }
  split.
  { intros a b Hx Hy1 Hy2 Hwa Hwb. apply rectsCollide_iff.
    repeat split; try assumption.
    - rewrite Hx. apply Qle_refl.
    - rewrite <- Hx. lra. }
  split; [exact overlaps_iff|].
  intros p o Hx. apply not_true_is_false. rewrite overlaps_iff.
  intros (_ & H & _). rewrite Hx in H. exact (Qlt_irrefl _ H).
Qed.

(** C1, as the claim states it, fails on [rectsCollide]: two 10 by 10
    squares side by side, the right edge of the first on the left edge of
    the second, collide. *)
Lemma rectsCollide_touching_is_true :
  Rect.x (Rect.mk 0 0 10 10) + Rect.width (Rect.mk 0 0 10 10) == Rect.x (Rect.mk 10 0 10 10)
  /\ Game.rectsCollide (Rect.mk 0 0 10 10) (Rect.mk 10 0 10 10) = true.
Proof. split; reflexivity. Qed.

(** ** The collision pass leaves the physics alone *)

Section Detect.

Import Game.

Variables (env : Env) (cl : Closure) (ok : bool).

(** Whatever every run of the game-over branch preserves, the pass over the
    obstacles preserves. *)
Lemma detect_preserves (P : State.t * World -> Prop) (sw : State.t * World) :
  (forall acc, P acc -> P (game_over cl ok acc)) ->
  P sw -> P (detect env cl ok sw).
Proof.
  intros Hstep. unfold detect.
  generalize (State.player sw.1). intros p.
  generalize (State.obstacles sw.1). intros obs.
  revert sw. induction obs as [|o obs IH]; intros sw Hsw; simpl; [assumption|].
  apply IH. destruct (hits env p o); auto.
Qed.

Lemma game_over_physics (acc : State.t * World) :
  State.player (game_over cl ok acc).1 = State.player acc.1
  /\ State.obstacles (game_over cl ok acc).1 = State.obstacles acc.1
  /\ State.speed (game_over cl ok acc).1 = State.speed acc.1
  /\ State.score (game_over cl ok acc).1 = State.score acc.1
  /\ State.groundOffset (game_over cl ok acc).1 = State.groundOffset acc.1
  /\ State.lastSpawnX (game_over cl ok acc).1 = State.lastSpawnX acc.1.
Proof. unfold game_over. destruct (Js.gt_num _ _); simpl; auto 10. Qed.

Lemma detect_physics (sw : State.t * World) :
  State.player (detect env cl ok sw).1 = State.player sw.1
  /\ State.obstacles (detect env cl ok sw).1 = State.obstacles sw.1
  /\ State.speed (detect env cl ok sw).1 = State.speed sw.1
  /\ State.score (detect env cl ok sw).1 = State.score sw.1
  /\ State.groundOffset (detect env cl ok sw).1 = State.groundOffset sw.1
  /\ State.lastSpawnX (detect env cl ok sw).1 = State.lastSpawnX sw.1.
Proof.
  apply (detect_preserves (fun acc =>
    State.player acc.1 = State.player sw.1
    /\ State.obstacles acc.1 = State.obstacles sw.1
    /\ State.speed acc.1 = State.speed sw.1
    /\ State.score acc.1 = State.score sw.1
    /\ State.groundOffset acc.1 = State.groundOffset sw.1
    /\ State.lastSpawnX acc.1 = State.lastSpawnX sw.1)); [|auto 10].
  intros acc (H1 & H2 & H3 & H4 & H5 & H6).
  destruct (game_over_physics acc) as (G1 & G2 & G3 & G4 & G5 & G6).
  rewrite G1, G2, G3, G4, G5, G6. auto 10.
Qed.

End Detect.

(** ** The physics step *)

Section Physics.

Import Game.

Variables (env : Env) (dt : Q) (rnd : Random3) (state : State.t).

Lemma spawnObstacle_player (cw : Q) (st : State.t) :
  State.player (spawnObstacle cw rnd st) = State.player st.
Proof. reflexivity. Qed.

Lemma physics_player :
  State.player (physics env dt rnd state) = step_player env dt (State.player state).
Proof. unfold physics. destruct (should_spawn _ _); reflexivity. Qed.

Lemma physics_speed :
  State.speed (physics env dt rnd state)
  = State.speed state + Config.obstacleAcceleration * dt.
Proof. reflexivity. Qed.

Lemma physics_score :
  State.score (physics env dt rnd state)
  = (State.score state
     + score_gain (State.speed state + Config.obstacleAcceleration * dt) dt)%Z.
Proof. unfold physics. destruct (should_spawn _ _); reflexivity. Qed.

Lemma physics_running :
  State.running (physics env dt rnd state) = State.running state.
Proof. unfold physics. destruct (should_spawn _ _); reflexivity. Qed.

Lemma step_player_height (p : Player.t) :
  Player.height (step_player env dt p) = Player.height p.
Proof. unfold step_player. destruct (Js.geb _ _); reflexivity. Qed.

Lemma step_player_below (p : Player.t) :
  Player.y (step_player env dt p) <= groundY env p.
Proof.
  unfold step_player. destruct (Js.geb _ _) eqn:E; simpl.
  - apply Qle_refl.
  - apply Qlt_le_weak, JsFacts.geb_lt, E.
Qed.

Lemma step_player_lands (p : Player.t) :
  groundY env p <= integrate_y dt p ->
  step_player env dt p
  = Player.mk (Player.x p) (groundY env p) 0 (Player.width p) (Player.height p) true.
Proof.
  intros H. unfold step_player.
  apply JsFacts.geb_ge in H. rewrite H. reflexivity.
Qed.

End Physics.

(** C2.  One update step with [0 <= dt <= 40 ms] leaves the player on or above
    the ground line; when gravity carries [y] to the line or past it, [y] is
    the line, the vertical velocity is zero and [grounded] is set. *)
Theorem player_never_below_ground
    (env : Game.Env) (cl : Game.Closure) (fr : Game.Frame) (dt : Q)
    (state : State.t) (w : Game.World) :
  0 <= dt -> dt <= 40 / 1000 ->
  let p' := State.player (Game.update env cl fr dt state w).1 in
  Player.y p' <= Game.groundY env p'
  /\ Game.groundY env p' = Game.groundY env (State.player state)
  /\ (Game.groundY env (State.player state) <= Game.integrate_y dt (State.player state) ->
      Player.y p' = Game.groundY env (State.player state)
      /\ Player.vy p' = 0 /\ Player.grounded p' = true).
Proof.
  intros _ _ p'.
  assert (Hp : p' = Game.step_player env dt (State.player state)).
  { unfold p', Game.update.
    destruct (detect_physics env cl (Game.setItem_ok fr)
                (Game.physics env dt (Game.random fr) state,
                 Game.publish_score cl (Game.physics env dt (Game.random fr) state) w))
      as (H & _).
    rewrite H. apply physics_player. }
  assert (Hg : Game.groundY env p' = Game.groundY env (State.player state)).
  { unfold Game.groundY. rewrite Hp, step_player_height. reflexivity. }
  split; [|split; [exact Hg|]].
  - rewrite Hg, Hp. apply step_player_below.
  - intros Hland. rewrite Hp, (step_player_lands env dt _ Hland). auto.
Qed.

Lemma player_never_below_ground_witness :
  let env := Game.mkEnv 800 420 1 in
  let cl := Game.mkClosure false 0 (Js.Fin 0) in
  let fr := Game.mkFrame 16 (Game.mkRandom 0 0 0) true in
  let state := State.mk (Player.mk 80 279 100 44 44 false) [] 0 480 0 true 0 in
  let w := Game.mkWorld true 0 (Js.Fin 0) false 0 (Some state) ∅ in
  let p' := State.player (Game.update env cl fr (16 / 1000) state w).1 in
  Player.y p' <= Game.groundY env p'
  /\ Game.groundY env p' = Game.groundY env (State.player state)
  /\ (Game.groundY env (State.player state) <= Game.integrate_y (16 / 1000) (State.player state) ->
      Player.y p' = Game.groundY env (State.player state)
      /\ Player.vy p' = 0 /\ Player.grounded p' = true).
Proof.
  intros env cl fr state w.
  apply (player_never_below_ground env cl fr (16 / 1000) state w).
  - vm_compute. discriminate.
  - vm_compute. discriminate.
Defined.

(** ** Spawning *)

Section Spawn.

Import Game.

Lemma spawn_gap_range (rnd : Random3) :
  unit_interval (rnd_gap rnd) ->
  Config.obstacleMinGap <= spawn_gap rnd /\ spawn_gap rnd < Config.obstacleMaxGap.
Proof.
  unfold unit_interval, spawn_gap, Config.obstacleMinGap, Config.obstacleMaxGap.
  intros [H0 H1]. split; lra.
Qed.

(** The trigger, read off the array. *)
Lemma should_spawn_iff (env : Env) (obs : list Obstacle.t) :
  should_spawn env obs = true <->
  obs = [] \/ exists o, last obs = Some o
                        /\ Obstacle.x o < canvas_width env - Config.spawnEarlyTime.
Proof.
  unfold should_spawn. destruct obs as [|o0 obs].
  - simpl. split; auto.
  - change (length (o0 :: obs) =? 0)%nat with false. rewrite orb_false_l.
    destruct (last (o0 :: obs)) as [o|] eqn:E.
    + rewrite JsFacts.ltb_lt. split.
      * intros H. right. exists o. auto.
      * intros [H | (o' & Ho' & H)]; [discriminate|]. congruence.
    + apply last_None in E. discriminate.
Qed.

Lemma physics_obstacles (env : Env) (dt : Q) (rnd : Random3) (state : State.t) :
  let kept := List.filter on_screen
                (map (move_obstacle (State.speed state * dt)) (State.obstacles state)) in
  State.obstacles (physics env dt rnd state)
  = kept ++ (if should_spawn env kept then [new_obstacle (canvas_width env) rnd] else []).
Proof.
  intros kept. unfold physics. fold kept.
  destruct (should_spawn env kept); simpl; [reflexivity|].
  symmetry. apply app_nil_r.
Qed.

End Spawn.

(** C3.  The generator measures in device pixels.  [spawnObstacle] is given
    [canvas.width], the width of the backing store, where the frame is laid
    out in view units, [canvas.width / devicePixelRatio] wide, as the ground
    line and the drawing have it.  On an 800 wide view at a pixel ratio of 2
    the canvas is 1600 wide: the first obstacle is put at 1960, beyond
    [view width + 700], and an obstacle at 0 triggers a spawn although it is
    not left of [view width - 1200].  At a pixel ratio of 1 the two widths
    are one and the code does what the claim says: the obstacle is put at
    [view width + gap] with [gap = 360 + 340 r] for the draw [r] in [0, 1),
    which takes every value from 360 up to 700, and a step spawns it exactly
    when no obstacle is left or the last one has [x < view width - 1200]. *)
Theorem spawn_measures_in_device_pixels :
  (Game.canvas_width (Game.resize 800 420 2) = 1600
   /\ Game.vw (Game.resize 800 420 2) == 800
   /\ State.obstacles
        (Game.physics (Game.resize 800 420 2) (16 / 1000) (Game.mkRandom 0 0 0)
           Game.resetGameState)
      = [Game.new_obstacle 1600 (Game.mkRandom 0 0 0)]
   /\ Obstacle.x (Game.new_obstacle 1600 (Game.mkRandom 0 0 0)) == 1960
   /\ Game.vw (Game.resize 800 420 2) + 700
      < Obstacle.x (Game.new_obstacle 1600 (Game.mkRandom 0 0 0))
   /\ Game.should_spawn (Game.resize 800 420 2) [Obstacle.mk 0 0 40 60] = true
   /\ Game.vw (Game.resize 800 420 2) - 1200 <= Obstacle.x (Obstacle.mk 0 0 40 60))
  /\ (forall (env : Game.Env) (rnd : Game.Random3),
         Game.dpr env == 1 ->
         Game.unit_interval (Game.rnd_gap rnd) ->
         Obstacle.x (Game.new_obstacle (Game.canvas_width env) rnd)
         == Game.vw env + Game.spawn_gap rnd
         /\ Game.spawn_gap rnd == 360 + 340 * Game.rnd_gap rnd
         /\ 360 <= Game.spawn_gap rnd /\ Game.spawn_gap rnd < 700)
  /\ (forall g : Q,
         360 <= g -> g < 700 ->
         exists r : Q,
           Game.unit_interval r
           /\ forall rh rw : Q, Game.spawn_gap (Game.mkRandom r rh rw) == g)
  /\ (forall (env : Game.Env) (dt : Q) (rnd : Game.Random3) (state : State.t),
         Game.dpr env == 1 ->
         let kept := List.filter Game.on_screen
                       (map (Game.move_obstacle (State.speed state * dt))
                          (State.obstacles state)) in
         State.obstacles (Game.physics env dt rnd state)
         = kept ++ (if Game.should_spawn env kept
                    then [Game.new_obstacle (Game.canvas_width env) rnd] else [])
         /\ (Game.should_spawn env kept = true <->
             kept = [] \/ exists l, last kept = Some l
                                    /\ Obstacle.x l < Game.vw env - 1200)).
Proof.
  split.
  { split; [vm_compute; reflexivity|].
    split; [vm_compute; reflexivity|].
    split; [vm_compute; reflexivity|].
    split; [vm_compute; reflexivity|].
    split; [vm_compute; reflexivity|].
    split; [vm_compute; reflexivity|].
    vm_compute; discriminate. }
  assert (Hvw : forall env, Game.dpr env == 1 -> Game.vw env == Game.canvas_width env).
  { intros env Hd. unfold Game.vw. rewrite Hd. field. }
  split.
  { intros env rnd Hd Hr. rewrite (Hvw env Hd).
    destruct (spawn_gap_range rnd Hr) as [Hlo Hhi].
    change Config.obstacleMinGap with 360 in Hlo.
    change Config.obstacleMaxGap with 700 in Hhi.
    split; [reflexivity|].
    split; [unfold Game.spawn_gap, Config.obstacleMinGap, Config.obstacleMaxGap; ring|].
    split; assumption. }
  split.
  { intros g Hlo Hhi. exists ((g - 360) / 340). split.
    - unfold Game.unit_interval. split.
      + apply Qle_shift_div_l; [reflexivity | lra].
      + apply Qlt_shift_div_r; [reflexivity | lra].
    - intros rh rw. unfold Game.spawn_gap, Config.obstacleMinGap, Config.obstacleMaxGap.
      cbn [Game.rnd_gap]. field. }
  intros env dt rnd state Hd kept. split.
  - apply physics_obstacles.
  - rewrite (should_spawn_iff env kept).
    change Config.spawnEarlyTime with 1200.
    split; (intros [H | (l & Hl & Hx)]; [left; exact H | right; exists l; split; [exact Hl|]]).
    + rewrite (Hvw env Hd). exact Hx.
    + rewrite <- (Hvw env Hd). exact Hx.
Qed.

(** ** Jump and restart *)

(** C7.  With a session that is running and a grounded player, [jump] sets the
    vertical velocity to the impulse -820 (upward) and clears [grounded],
    touching nothing else; with no session, a stopped session or an airborne
    player it returns the component as it was.  It is a total function: no
    case raises. *)
Theorem jump_running_grounded_else_noop (w : Game.World) :
  Game.jump_impulse < 0
  /\ match Game.gameStateRef w with
     | Some state =>
         if State.running state && Player.grounded (State.player state) then
           exists state',
             Game.gameStateRef (Game.jump w) = Some state'
             /\ Player.vy (State.player state') = Game.jump_impulse
             /\ Player.grounded (State.player state') = false
             /\ Player.x (State.player state') = Player.x (State.player state)
             /\ Player.y (State.player state') = Player.y (State.player state)
             /\ Player.width (State.player state') = Player.width (State.player state)
             /\ Player.height (State.player state') = Player.height (State.player state)
             /\ State.obstacles state' = State.obstacles state
             /\ State.lastSpawnX state' = State.lastSpawnX state
             /\ State.speed state' = State.speed state
             /\ State.score state' = State.score state
             /\ State.running state' = true
             /\ State.groundOffset state' = State.groundOffset state
             /\ Game.running (Game.jump w) = Game.running w
             /\ Game.score (Game.jump w) = Game.score w
             /\ Game.highScore (Game.jump w) = Game.highScore w
             /\ Game.paused (Game.jump w) = Game.paused w
             /\ Game.lastTimeRef (Game.jump w) = Game.lastTimeRef w
             /\ Game.localStorage (Game.jump w) = Game.localStorage w
         else Game.jump w = w
     | None => Game.jump w = w
     end.
Proof.
  split; [reflexivity|].
  unfold Game.jump. destruct (Game.gameStateRef w) as [state|]; [|reflexivity].
  destruct (State.running state) eqn:Er; simpl; [|reflexivity].
  destruct (Player.grounded (State.player state)); [|reflexivity].
  eexists. split; [reflexivity|]. simpl. auto 20.
Qed.

(** C8.  Whatever the component holds, [restart] installs the default session:
    the player at its start position with no velocity, no obstacles, the
    starting speed 480, score 0 and [running] set; the displayed score is 0,
    the displayed [running] is true and the frame clock is cleared.  The pause
    flag, the high score and the store are not touched. *)
Theorem restart_resets_session (w : Game.World) :
  Game.gameStateRef (Game.restart w) = Some Game.resetGameState
  /\ (Player.x (State.player Game.resetGameState) = Config.player_startX
      /\ Player.y (State.player Game.resetGameState) = 0
      /\ Player.vy (State.player Game.resetGameState) = 0
      /\ Player.width (State.player Game.resetGameState) = Config.player_w
      /\ Player.height (State.player Game.resetGameState) = Config.player_h
      /\ Player.grounded (State.player Game.resetGameState) = false)
  /\ State.obstacles Game.resetGameState = []
  /\ State.lastSpawnX Game.resetGameState = 0
  /\ State.speed Game.resetGameState = Config.obstacleSpeedStart
  /\ Config.obstacleSpeedStart = 480
  /\ State.score Game.resetGameState = 0%Z
  /\ State.running Game.resetGameState = true
  /\ State.groundOffset Game.resetGameState = 0
  /\ Game.score (Game.restart w) = 0%Z
  /\ Game.running (Game.restart w) = true
  /\ Game.lastTimeRef (Game.restart w) = 0
  /\ Game.paused (Game.restart w) = Game.paused w
  /\ Game.highScore (Game.restart w) = Game.highScore w
  /\ Game.localStorage (Game.restart w) = Game.localStorage w.
Proof. repeat split. Qed.

(** ** Frames *)

Section Frames.

Import Game Canvas.

Variables (env : Env) (cl : Closure) (fr : Frame).

Lemma draw_nonempty (state : State.t) : draw env cl state <> [].
Proof. unfold draw, draw_background. simpl. discriminate. Qed.

(** A frame that skips the update. *)
Lemma loop_skip (w : World) :
  negb (c_paused cl) && State.running (default resetGameState (gameStateRef w)) = false ->
  loop env cl fr w
  = (mkWorld (running w) (score w) (highScore w) (paused w) (timestamp fr)
       (Some (default resetGameState (gameStateRef w))) (localStorage w),
     draw env cl (default resetGameState (gameStateRef w))).
Proof. intros H. unfold loop. rewrite H. reflexivity. Qed.

(** A frame that runs it. *)
Lemma loop_update (w : World) :
  negb (c_paused cl) && State.running (default resetGameState (gameStateRef w)) = true ->
  gameStateRef (loop env cl fr w).1
  = Some (update env cl fr (frame_dt (timestamp fr) (lastTimeRef w))
            (default resetGameState (gameStateRef w))
            (mkWorld (running w) (score w) (highScore w) (paused w) (timestamp fr)
               (Some (default resetGameState (gameStateRef w))) (localStorage w))).1.
Proof. intros H. unfold loop. rewrite H. reflexivity. Qed.

Lemma game_over_clock (ok : bool) (acc : State.t * World) :
  lastTimeRef (game_over cl ok acc).2 = lastTimeRef acc.2.
Proof. unfold game_over. destruct (Js.gt_num _ _); reflexivity. Qed.

Lemma loop_clock (w : World) : lastTimeRef (loop env cl fr w).1 = timestamp fr.
Proof.
  unfold loop. simpl.
  destruct (negb (c_paused cl) && State.running _); [|reflexivity].
  unfold update.
  apply (detect_preserves env cl (setItem_ok fr)
           (fun acc => lastTimeRef acc.2 = timestamp fr)).
  - intros acc H. rewrite game_over_clock. exact H.
  - simpl. unfold publish_score. destruct (_ >? _)%Z; reflexivity.
Qed.

End Frames.

(** C6.  A frame taken while the loop sees [paused], or on a session that is
    over, leaves the whole session state as it was (so none of the update
    steps ran) and leaves the score, high score, run flag and store of the
    component as they were; the frame is still painted, from that same state,
    and only the frame clock advances. *)
Theorem paused_or_over_frame_only_draws
    (env : Game.Env) (cl : Game.Closure) (fr : Game.Frame) (w : Game.World)
    (state : State.t) :
  Game.gameStateRef w = Some state ->
  Game.c_paused cl = true \/ State.running state = false ->
  Game.gameStateRef (Game.loop env cl fr w).1 = Some state
  /\ (Game.loop env cl fr w).2 = Game.draw env cl state
  /\ (Game.loop env cl fr w).2 <> []
  /\ Game.running (Game.loop env cl fr w).1 = Game.running w
  /\ Game.score (Game.loop env cl fr w).1 = Game.score w
  /\ Game.highScore (Game.loop env cl fr w).1 = Game.highScore w
  /\ Game.paused (Game.loop env cl fr w).1 = Game.paused w
  /\ Game.localStorage (Game.loop env cl fr w).1 = Game.localStorage w
  /\ Game.lastTimeRef (Game.loop env cl fr w).1 = Game.timestamp fr.
Proof.
  intros Hs Hskip.
  rewrite (loop_skip env cl fr w).
  - rewrite Hs. simpl. repeat split. apply draw_nonempty.
  - rewrite Hs. simpl. destruct Hskip as [-> | ->]; [reflexivity|].
    apply andb_false_r.
Qed.

Lemma paused_or_over_frame_only_draws_witness :
  let env := Game.mkEnv 800 420 1 in
  let cl := Game.mkClosure true 0 (Js.Fin 0) in
  let fr := Game.mkFrame 1016 (Game.mkRandom 0 0 0) true in
  let state := State.mk (Player.mk 80 200 (-300) 44 44 false)
                 [Obstacle.mk 600 0 40 60] 1160 500 7 true 30 in
  let w := Game.mkWorld true 7 (Js.Fin 0) true 1000 (Some state) ∅ in
  Game.gameStateRef (Game.loop env cl fr w).1 = Some state
  /\ (Game.loop env cl fr w).2 = Game.draw env cl state
  /\ (Game.loop env cl fr w).2 <> []
  /\ Game.running (Game.loop env cl fr w).1 = Game.running w
  /\ Game.score (Game.loop env cl fr w).1 = Game.score w
  /\ Game.highScore (Game.loop env cl fr w).1 = Game.highScore w
  /\ Game.paused (Game.loop env cl fr w).1 = Game.paused w
  /\ Game.localStorage (Game.loop env cl fr w).1 = Game.localStorage w
  /\ Game.lastTimeRef (Game.loop env cl fr w).1 = Game.timestamp fr.
Proof.
  intros env cl fr state w.
  apply (paused_or_over_frame_only_draws env cl fr w state).
  - reflexivity.
  - left. reflexivity.
Defined.

(** ** Score and speed over a session *)

Section Session.

Import Game.

Lemma frame_dt_nonneg (ts last : Q) : last <= ts -> 0 <= frame_dt ts last.
Proof.
  intros H. unfold frame_dt.
  assert (Hd : 0 <= Qmin 40 (ts - (if Qeq_bool last 0 then ts else last))).
  { apply Q.min_glb; [discriminate|].
    destruct (Qeq_bool last 0); lra. }
  unfold Qdiv. apply Qmult_le_0_compat; [exact Hd | discriminate].
Qed.

Lemma frame_dt_clamped (ts last : Q) : frame_dt ts last <= 40 / 1000.
Proof.
  unfold frame_dt, Qdiv. apply Qmult_le_compat_r; [|discriminate].
  apply Q.le_min_l.
Qed.

Lemma score_gain_nonneg (speed dt : Q) :
  0 <= speed -> 0 <= dt -> (0 <= score_gain speed dt)%Z.
Proof.
  intros Hs Hd. unfold score_gain, Js.floor.
  change 0%Z with (Qfloor 0). apply Qfloor_resp_le.
  apply Qmult_le_0_compat; [apply Qmult_le_0_compat; assumption | discriminate].
Qed.

Lemma timely_app (evs1 evs2 : list Event) (last : Q) :
  timely last (evs1 ++ evs2) <-> timely last evs1 /\ timely (clock last evs1) evs2.
Proof.
  revert last. induction evs1 as [|ev evs1 IH]; intros last; simpl.
  - tauto.
  - destruct ev; rewrite ?IH; tauto.
Qed.

Lemma step_clock (ev : Event) (wc : World * Closure) :
  lastTimeRef (step ev wc).1 = clock (lastTimeRef wc.1) [ev].
Proof.
  destruct ev; simpl; try reflexivity.
  - apply loop_clock.
  - unfold jump. destruct (gameStateRef wc.1) as [st|]; [|reflexivity].
    destruct (negb (State.running st)); [reflexivity|].
    destruct (Player.grounded (State.player st)); reflexivity.
Qed.

Lemma run_clock (evs : list Event) (wc : World * Closure) :
  lastTimeRef (run evs wc).1 = clock (lastTimeRef wc.1) evs.
Proof.
  revert wc. induction evs as [|ev evs IH]; intros wc; [reflexivity|].
  change (run (ev :: evs) wc) with (run evs (step ev wc)).
  rewrite IH, step_clock. destruct ev; reflexivity.
Qed.

Lemma loop_paused (env : Env) (cl : Closure) (fr : Frame) (w : World) :
  paused (loop env cl fr w).1 = paused w.
Proof.
  unfold loop. simpl.
  destruct (negb (c_paused cl) && State.running _); [|reflexivity].
  unfold update.
  apply (detect_preserves env cl (setItem_ok fr)
           (fun acc => paused acc.2 = paused w)).
  - intros acc Ha. unfold game_over. destruct (Js.gt_num _ _); exact Ha.
  - simpl. unfold publish_score. destruct (_ >? _)%Z; reflexivity.
Qed.

Lemma jump_paused (w : World) : paused (jump w) = paused w.
Proof.
  unfold jump. destruct (gameStateRef w) as [st|]; [|reflexivity].
  destruct (negb (State.running st)); [reflexivity|].
  destruct (Player.grounded (State.player st)); reflexivity.
Qed.

Lemma jump_session (w : World) :
  State.score (default resetGameState (gameStateRef (jump w)))
  = State.score (default resetGameState (gameStateRef w))
  /\ State.speed (default resetGameState (gameStateRef (jump w)))
     = State.speed (default resetGameState (gameStateRef w)).
Proof.
  unfold jump. destruct (gameStateRef w) as [st|] eqn:E; [|rewrite E; auto].
  destruct (negb (State.running st)); [rewrite E; auto|].
  destruct (Player.grounded (State.player st)); [|rewrite E; auto].
  simpl. auto.
Qed.

(** The loop always sees the pause flag of the component. *)
Lemma step_paused (ev : Event) (wc : World * Closure) :
  c_paused wc.2 = paused wc.1 -> c_paused (step ev wc).2 = paused (step ev wc).1.
Proof.
  intros H. destruct ev; cbn [step fst snd].
  - rewrite loop_paused. exact H.
  - rewrite jump_paused. exact H.
  - exact H.
  - reflexivity.
Qed.

Lemma run_paused (evs : list Event) (wc : World * Closure) :
  c_paused wc.2 = paused wc.1 -> c_paused (run evs wc).2 = paused (run evs wc).1.
Proof.
  revert wc. induction evs as [|ev evs IH]; intros wc H; [exact H|].
  apply (IH (step ev wc)), step_paused, H.
Qed.

(** One event of a session: neither score nor speed goes down. *)
Lemma step_monotone (ev : Event) (wc : World * Closure) :
  is_restart ev = false ->
  timely (lastTimeRef wc.1) [ev] ->
  0 <= session_speed wc ->
  (session_score wc <= session_score (step ev wc))%Z
  /\ session_speed wc <= session_speed (step ev wc).
Proof.
  intros Hnr Ht Hsp. destruct ev as [env fr| | |]; try discriminate.
  - (* a frame *)
    unfold session_score, session_speed in *. cbn [step fst snd].
    destruct (negb (c_paused wc.2)
              && State.running (default resetGameState (gameStateRef wc.1))) eqn:E.
    + rewrite (loop_update env wc.2 fr wc.1 E).
      cbn [default option_map from_option id]. unfold update.
      match goal with |- context [detect ?e ?c ?o ?sw] =>
        destruct (detect_physics e c o sw) as (_ & _ & Hspeed & Hscore & _)
      end.
      rewrite Hspeed, Hscore. simpl fst.
      rewrite physics_speed, physics_score.
      destruct Ht as [Ht _].
      pose proof (frame_dt_nonneg _ _ Ht) as Hdt.
      set (dt := frame_dt (timestamp fr) (lastTimeRef wc.1)) in *.
      set (sp := State.speed (default resetGameState (gameStateRef wc.1))) in *.
      assert (Hacc : 0 <= Config.obstacleAcceleration * dt)
        by (apply Qmult_le_0_compat; [discriminate | exact Hdt]).
      split.
      * assert (Hsp' : 0 <= sp + Config.obstacleAcceleration * dt) by lra.
        pose proof (score_gain_nonneg _ dt Hsp' Hdt). lia.
      * lra.
    + rewrite (loop_skip env wc.2 fr wc.1 E). simpl. split; [lia | apply Qle_refl].
  - (* a jump *)
    unfold session_score, session_speed. cbn [step fst snd].
    destruct (jump_session wc.1) as [-> ->]. split; [lia | apply Qle_refl].
  - (* pause *)
    unfold session_score, session_speed. cbn [step fst snd togglePause gameStateRef].
    split; [lia | apply Qle_refl].
Qed.

Lemma run_monotone (evs : list Event) (wc : World * Closure) :
  existsb is_restart evs = false ->
  timely (lastTimeRef wc.1) evs ->
  0 <= session_speed wc ->
  (session_score wc <= session_score (run evs wc))%Z
  /\ session_speed wc <= session_speed (run evs wc).
Proof.
  revert wc. induction evs as [|ev evs IH]; intros wc Hnr Ht Hsp.
  - simpl. split; [lia | apply Qle_refl].
  - change (run (ev :: evs) wc) with (run evs (step ev wc)).
    simpl in Hnr. apply orb_false_iff in Hnr. destruct Hnr as [Hev Hevs].
    change (ev :: evs) with ([ev] ++ evs) in Ht.
    apply timely_app in Ht. destruct Ht as [Ht1 Ht2].
    destruct (step_monotone ev wc Hev Ht1 Hsp) as [Hsc1 Hsp1].
    destruct (IH (step ev wc) Hevs) as [Hsc2 Hsp2].
    + rewrite step_clock. exact Ht2.
    + lra.
    + split; [lia | lra].
Qed.

End Session.

(** C9.  Within one session (no restart), with frame timestamps that never
    run backwards and a speed that starts non-negative (a fresh session
    starts at 480), the score and the speed after any further events are at
    least what they were before them.  One update step with [dt >= 0]
    adds [20 * dt] to the speed, with no upper bound in the code, and then
    adds [floor (speed * dt * 0.05)], which is not negative, to the score. *)
Theorem score_and_speed_never_decrease
    (evs1 evs2 : list Game.Event) (wc : Game.World * Game.Closure) :
  existsb Game.is_restart (evs1 ++ evs2) = false ->
  Game.timely (Game.lastTimeRef wc.1) (evs1 ++ evs2) ->
  0 <= Game.session_speed wc ->
  (Game.session_score (Game.run evs1 wc)
   <= Game.session_score (Game.run (evs1 ++ evs2) wc))%Z
  /\ Game.session_speed (Game.run evs1 wc)
     <= Game.session_speed (Game.run (evs1 ++ evs2) wc)
  /\ (forall (env : Game.Env) (dt : Q) (rnd : Game.Random3) (state : State.t),
         0 <= dt -> 0 <= State.speed state ->
         State.speed (Game.physics env dt rnd state) = State.speed state + 20 * dt
         /\ State.speed state <= State.speed (Game.physics env dt rnd state)
         /\ State.score (Game.physics env dt rnd state)
            = (State.score state
               + Js.floor (State.speed (Game.physics env dt rnd state) * dt * 0.05))%Z
         /\ (0 <= Js.floor (State.speed (Game.physics env dt rnd state) * dt * 0.05))%Z).
Proof.
  intros Hnr Ht Hsp.
  rewrite existsb_app in Hnr. apply orb_false_iff in Hnr. destruct Hnr as [Hnr1 Hnr2].
  apply timely_app in Ht. destruct Ht as [Ht1 Ht2].
  destruct (run_monotone evs1 wc Hnr1 Ht1 Hsp) as [_ Hsp1].
  assert (Hrun : Game.run (evs1 ++ evs2) wc = Game.run evs2 (Game.run evs1 wc))
    by apply fold_left_app.
  rewrite Hrun.
  destruct (run_monotone evs2 (Game.run evs1 wc) Hnr2) as [Hsc2 Hsp2].
  - rewrite run_clock. exact Ht2.
  - lra.
  - split; [exact Hsc2 | split; [exact Hsp2|]].
    intros env dt rnd state Hdt Hs.
    rewrite physics_speed, physics_score.
    change Config.obstacleAcceleration with 20.
    assert (0 <= 20 * dt) by (apply Qmult_le_0_compat; [discriminate | exact Hdt]).
    repeat split.
    + lra.
    + apply (score_gain_nonneg (State.speed state + 20 * dt) dt); [lra | exact Hdt].
Qed.

Lemma score_and_speed_never_decrease_witness :
  let env := Game.mkEnv 800 420 1 in
  let tick t := Game.Tick env (Game.mkFrame t (Game.mkRandom (1 # 2) (1 # 2) (1 # 2)) true) in
  let evs1 := [tick 40; tick 80; Game.Jump] in
  let evs2 := [tick 120; Game.TogglePause; tick 160; Game.TogglePause; tick 200] in
  let wc := Game.mount ∅ in
  (Game.session_score (Game.run evs1 wc)
   <= Game.session_score (Game.run (evs1 ++ evs2) wc))%Z
  /\ Game.session_speed (Game.run evs1 wc)
     <= Game.session_speed (Game.run (evs1 ++ evs2) wc)
  /\ (forall (env : Game.Env) (dt : Q) (rnd : Game.Random3) (state : State.t),
         0 <= dt -> 0 <= State.speed state ->
         State.speed (Game.physics env dt rnd state) = State.speed state + 20 * dt
         /\ State.speed state <= State.speed (Game.physics env dt rnd state)
         /\ State.score (Game.physics env dt rnd state)
            = (State.score state
               + Js.floor (State.speed (Game.physics env dt rnd state) * dt * 0.05))%Z
         /\ (0 <= Js.floor (State.speed (Game.physics env dt rnd state) * dt * 0.05))%Z).
Proof.
  intros env tick evs1 evs2 wc.
  apply (score_and_speed_never_decrease evs1 evs2 wc).
  - reflexivity.
  - simpl. repeat split; vm_compute; discriminate.
  - vm_compute. discriminate.
Defined.

(** ** Reading back a stored score *)

Section NumberOfString.

Import Js.

Lemma string_of_uint_digits (d : Decimal.uint) :
  all_digits (NilEmpty.string_of_uint d) = true.
Proof. induction d; simpl; auto. Qed.

Lemma digit_not_space (c : ascii) : is_digit c = true -> is_space c = false.
Proof.
  unfold is_digit, is_space. intros H.
  apply andb_true_iff in H. destruct H as [H1 H2].
  apply N.leb_le in H1. apply N.leb_le in H2.
  apply orb_false_iff. split.
  - apply andb_false_iff. right. apply N.leb_gt. lia.
  - apply N.eqb_neq. lia.
Qed.

Lemma digit_not_lead (c : ascii) : is_digit c = true -> space_lead c = false.
Proof.
  unfold is_digit, space_lead. intros H.
  apply andb_true_iff in H. destruct H as [H1 H2].
  apply N.leb_le in H1. apply N.leb_le in H2.
  repeat (apply orb_false_iff; split); apply N.eqb_neq; lia.
Qed.

Lemma digit_space_width (c : ascii) (s : string) :
  is_digit c = true -> space_width (String c s) = 0%nat.
Proof.
  intros H. unfold space_width.
  rewrite (digit_not_space c H), (digit_not_lead c H). reflexivity.
Qed.

Lemma trim_left_digit (c : ascii) (s : string) :
  is_digit c = true -> trim_left (String c s) = String c s.
Proof.
  intros H. unfold trim_left. cbn [String.length trim_left_from].
  rewrite (digit_space_width c s H). reflexivity.
Qed.

Lemma all_digits_not_all_space (c : ascii) (s : string) :
  is_digit c = true -> all_space (String c s) = false.
Proof. intros H. unfold all_space. rewrite (trim_left_digit c s H). reflexivity. Qed.

Lemma trim_right_digits (s : string) : all_digits s = true -> trim_right s = s.
Proof.
  induction s as [|c s IH]; [reflexivity|].
  intros H. apply andb_true_iff in H. destruct H as [Hc Hs].
  cbn [trim_right]. rewrite (all_digits_not_all_space c s Hc), (IH Hs). reflexivity.
Qed.

Lemma trim_digits (s : string) : all_digits s = true -> trim s = s.
Proof.
  intros H. unfold trim.
  assert (Hl : trim_left s = s).
  { destruct s as [|c s]; [reflexivity|].
    apply andb_true_iff in H. destruct H as [Hc _].
    apply trim_left_digit, Hc. }
  rewrite Hl. apply trim_right_digits, H.
Qed.

Lemma span_digits_all (s : string) :
  all_digits s = true -> span_digits s = (s, EmptyString).
Proof.
  induction s as [|c s IH]; [reflexivity|].
  intros H. apply andb_true_iff in H. destruct H as [Hc Hs].
  simpl. rewrite Hc, (IH Hs). reflexivity.
Qed.

Lemma Qred_inject_Z (z : Z) : Qred (inject_Z z) = inject_Z z.
Proof.
  unfold Qred, inject_Z.
  pose proof (Z.ggcd_gcd z 1) as Hg. pose proof (Z.ggcd_correct_divisors z 1) as Hd.
  destruct (Z.ggcd z 1) as [g [a b]]. simpl in *.
  rewrite Z.gcd_1_r in Hg. subst g. destruct Hd as [Ha Hb].
  rewrite Z.mul_1_l in Ha, Hb. subst a b. reflexivity.
Qed.

(** A non-empty string of digits, read as an unsigned decimal literal. *)
Lemma unsigned_decimal_digits (d : Decimal.uint) :
  d <> Decimal.Nil ->
  exists q, unsigned_decimal (NilEmpty.string_of_uint d) = Some q
            /\ q == inject_Z (Z.of_uint d).
Proof.
  intros Hd. unfold unsigned_decimal.
  rewrite (span_digits_all _ (string_of_uint_digits d)).
  assert (Hne : String.eqb (NilEmpty.string_of_uint d) "" = false)
    by (destruct d; try reflexivity; contradiction).
  rewrite Hne. cbn [andb].
  unfold digits_value. rewrite NilEmpty.usu. cbn.
  eexists. split; [reflexivity|].
  unfold Z.of_uint, N.of_uint.
  change (inject_Z (10 ^ Z.of_nat 0)) with 1. change (inject_Z 0) with 0.
  field.
Qed.

Lemma signed_decimal_digit_head (c : ascii) (r : string) :
  is_digit c = true ->
  signed_decimal (String c r)
  = (fun q => Fin (Qred q)) <$> unsigned_decimal (String c r).
Proof.
  intros H. destruct c as [b0 b1 b2 b3 b4 b5 b6 b7].
  destruct b0, b1, b2, b3, b4, b5, b6, b7; try discriminate H; reflexivity.
Qed.

Lemma digit_head_not_Infinity (c : ascii) (r : string) :
  is_digit c = true -> String.eqb (String c r) "Infinity" = false.
Proof.
  intros H. destruct c as [b0 b1 b2 b3 b4 b5 b6 b7].
  destruct b0, b1, b2, b3, b4, b5, b6, b7; try discriminate H; reflexivity.
Qed.

Lemma string_of_uint_head (d : Decimal.uint) :
  d <> Decimal.Nil ->
  exists c r, NilEmpty.string_of_uint d = String c r /\ is_digit c = true.
Proof. intros H. destruct d; try contradiction; simpl; eauto. Qed.

(** Reading the digits of a positive integer gives it back. *)
Lemma Number_of_digits (p : positive) :
  Number_of_string (NilEmpty.string_of_uint (Pos.to_uint p)) = Fin (inject_Z (Zpos p)).
Proof.
  pose proof (DecimalPos.Unsigned.to_uint_nonnil p) as Hnn.
  set (d := Pos.to_uint p) in *.
  unfold Number_of_string.
  rewrite (trim_digits _ (string_of_uint_digits d)).
  destruct (string_of_uint_head d Hnn) as (c & r & Hs & Hc).
  destruct (unsigned_decimal_digits d Hnn) as (q & Hq & Hv).
  rewrite Hs in *. cbn [String.eqb]. 
  rewrite (signed_decimal_digit_head c r Hc), Hq. cbn.
  f_equal. rewrite <- Qred_inject_Z. apply Qred_complete.
  rewrite Hv. unfold Z.of_uint, d. rewrite DecimalPos.Unsigned.of_to. reflexivity.
Qed.

Lemma Number_of_minus_digits (p : positive) :
  Number_of_string (String "-" (NilEmpty.string_of_uint (Pos.to_uint p)))
  = Fin (inject_Z (Zneg p)).
Proof.
  pose proof (DecimalPos.Unsigned.to_uint_nonnil p) as Hnn.
  set (d := Pos.to_uint p) in *.
  assert (Ht : trim (String "-" (NilEmpty.string_of_uint d))
               = String "-" (NilEmpty.string_of_uint d)).
  { unfold trim.
    change (trim_left (String "-" (NilEmpty.string_of_uint d)))
      with (String "-" (NilEmpty.string_of_uint d)).
    change (trim_right (String "-" (NilEmpty.string_of_uint d)))
      with (String "-" (trim_right (NilEmpty.string_of_uint d))).
    rewrite trim_right_digits by apply string_of_uint_digits.
    reflexivity. }
  unfold Number_of_string. rewrite Ht. cbn [String.eqb Ascii.eqb].
  destruct (string_of_uint_head d Hnn) as (c & r & Hs & Hc).
  destruct (unsigned_decimal_digits d Hnn) as (q & Hq & Hv).
  unfold signed_decimal. rewrite Hs in *.
  rewrite (digit_head_not_Infinity c r Hc), Hq. cbn.
  f_equal. rewrite <- Qred_inject_Z. apply Qred_complete.
  rewrite Hv. unfold Z.of_uint, d. rewrite DecimalPos.Unsigned.of_to. reflexivity.
Qed.

(** What [String] prints for an integer, [Number] reads back. *)
Lemma Number_of_String (z : Z) :
  Number_of_string (String_of_Z z) = Fin (inject_Z z).
Proof.
  destruct z as [|p|p]; unfold String_of_Z; cbn [Z.to_int NilZero.string_of_int].
  - reflexivity.
  - pose proof (DecimalPos.Unsigned.to_uint_nonnil p).
    unfold NilZero.string_of_uint.
    destruct (Pos.to_uint p) eqn:E; try contradiction; rewrite <- E;
      apply Number_of_digits.
  - pose proof (DecimalPos.Unsigned.to_uint_nonnil p).
    unfold NilZero.string_of_uint.
    destruct (Pos.to_uint p) eqn:E; try contradiction; rewrite <- E;
      apply Number_of_minus_digits.
Qed.



End NumberOfString.



(** ** The outcome of a collision *)

Section Outcome.

Import Game.

Variables (env : Env) (cl : Closure) (ok : bool).

Lemma game_over_twice (acc : State.t * World) :
  game_over cl ok (game_over cl ok acc) = game_over cl ok acc.
Proof.
  unfold game_over at 2.
  destruct (Js.gt_num (inject_Z (State.score acc.1)) (c_highScore cl)) eqn:E;
    unfold game_over; cbn [fst snd State.score]; rewrite E; cbn.
  - do 2 f_equal. unfold try_setItem.
    destruct ok; [apply insert_insert_eq | reflexivity].
  - reflexivity.
Qed.

(** The pass over the obstacles runs the game-over branch when some
    obstacle hits the player, and then running it once or several times is
    the same; otherwise it changes nothing. *)
Lemma detect_cases (sw : State.t * World) :
  detect env cl ok sw
  = if existsb (hits env (State.player sw.1)) (State.obstacles sw.1)
    then game_over cl ok sw else sw.
Proof.
  unfold detect.
  generalize (State.player sw.1). intros p.
  generalize (State.obstacles sw.1). intros obs.
  assert (Hover : fold_left
            (fun acc o => if hits env p o then game_over cl ok acc else acc)
            obs (game_over cl ok sw) = game_over cl ok sw).
  { induction obs as [|o obs IH]; [reflexivity|]. simpl.
    destruct (hits env p o); [rewrite game_over_twice|]; exact IH. }
  induction obs as [|o obs IH]; [reflexivity|]. simpl.
  destruct (hits env p o); simpl.
  - clear IH. revert Hover. simpl. destruct (hits env p o); [rewrite game_over_twice|]; auto.
  - apply IH. revert Hover. simpl. destruct (hits env p o); [rewrite game_over_twice|]; auto.
Qed.

End Outcome.

(** C4.  At game over the score is compared with the high score the loop
    closed over when its effect ran, not with the one in the store.  With a
    loop that holds the persisted high score, as on the first game over of a
    page, the code does what the claim says: the session stops, the score is
    written over the stored high score exactly when it is strictly above it,
    and a write that fails is swallowed while the in-memory high score is
    replaced all the same.  But frames, jumps and restarts never renew what
    the loop holds, only a pause toggle does.  So on a page loaded with an
    empty store (the loop holds 0), after a first session ended at 30 and a
    restart, a second session that ends at 20 writes 20 over the stored 30,
    although 20 is not above it. *)
Theorem game_over_compares_with_loop_high_score :
  (forall (evs : list Game.Event) (store : gmap string string),
      existsb Game.is_toggle evs = false ->
      (Game.run evs (Game.mount store)).2 = (Game.mount store).2)
  /\ Game.c_highScore (Game.mount ∅).2 = Js.Fin 0
  /\ (Game.initial_highScore true {[ "classic-highscore" := "30" ]} = Js.Fin 30
      /\ Js.gt_num 20 (Js.Fin 30) = false
      /\ Game.running
           (Game.loop (Game.mkEnv 800 420 1) (Game.mount ∅).2
              (Game.mkFrame 9016 (Game.mkRandom 0 0 0) true)
              (Game.mkWorld true 20 (Js.Fin 30) false 9000
                 (Some (State.mk (Player.mk 80 280 0 44 44 true) [Obstacle.mk 130 0 40 60]
                          1160 520 20 true 0))
                 {[ "classic-highscore" := "30" ]})).1 = false
      /\ (State.running <$> Game.gameStateRef
           (Game.loop (Game.mkEnv 800 420 1) (Game.mount ∅).2
              (Game.mkFrame 9016 (Game.mkRandom 0 0 0) true)
              (Game.mkWorld true 20 (Js.Fin 30) false 9000
                 (Some (State.mk (Player.mk 80 280 0 44 44 true) [Obstacle.mk 130 0 40 60]
                          1160 520 20 true 0))
                 {[ "classic-highscore" := "30" ]})).1) = Some false
      /\ (State.score <$> Game.gameStateRef
           (Game.loop (Game.mkEnv 800 420 1) (Game.mount ∅).2
              (Game.mkFrame 9016 (Game.mkRandom 0 0 0) true)
              (Game.mkWorld true 20 (Js.Fin 30) false 9000
                 (Some (State.mk (Player.mk 80 280 0 44 44 true) [Obstacle.mk 130 0 40 60]
                          1160 520 20 true 0))
                 {[ "classic-highscore" := "30" ]})).1) = Some 20%Z
      /\ Game.localStorage
           (Game.loop (Game.mkEnv 800 420 1) (Game.mount ∅).2
              (Game.mkFrame 9016 (Game.mkRandom 0 0 0) true)
              (Game.mkWorld true 20 (Js.Fin 30) false 9000
                 (Some (State.mk (Player.mk 80 280 0 44 44 true) [Obstacle.mk 130 0 40 60]
                          1160 520 20 true 0))
                 {[ "classic-highscore" := "30" ]})).1 !! "classic-highscore"
         = Some "20"
      /\ Game.highScore
           (Game.loop (Game.mkEnv 800 420 1) (Game.mount ∅).2
              (Game.mkFrame 9016 (Game.mkRandom 0 0 0) true)
              (Game.mkWorld true 20 (Js.Fin 30) false 9000
                 (Some (State.mk (Player.mk 80 280 0 44 44 true) [Obstacle.mk 130 0 40 60]
                          1160 520 20 true 0))
                 {[ "classic-highscore" := "30" ]})).1
         = Js.Fin 20)
  /\ (forall (env : Game.Env) (cl : Game.Closure) (ok : bool)
             (state : State.t) (w : Game.World),
         Game.c_highScore cl = Game.initial_highScore true (Game.localStorage w) ->
         existsb (Game.hits env (State.player state)) (State.obstacles state) = true ->
         State.running (Game.detect env cl ok (state, w)).1 = false
         /\ Game.running (Game.detect env cl ok (state, w)).2 = false
         /\ if Js.gt_num (inject_Z (State.score state))
                 (Game.initial_highScore true (Game.localStorage w)) then
              Game.highScore (Game.detect env cl ok (state, w)).2
              = Js.Fin (inject_Z (State.score state))
              /\ Game.localStorage (Game.detect env cl ok (state, w)).2
                 = if ok
                   then <[ "classic-highscore" := Js.String_of_Z (State.score state) ]>
                          (Game.localStorage w)
                   else Game.localStorage w
            else
              Game.highScore (Game.detect env cl ok (state, w)).2 = Game.highScore w
              /\ Game.localStorage (Game.detect env cl ok (state, w)).2
                 = Game.localStorage w).
Proof.
  split.
  { intros evs store. generalize (Game.mount store). intros wc.
    revert wc. induction evs as [|ev evs IH]; intros wc Hnt; [reflexivity|].
    simpl in Hnt. apply orb_false_iff in Hnt. destruct Hnt as [Hev Hevs].
    change (Game.run (ev :: evs) wc) with (Game.run evs (Game.step ev wc)).
    rewrite (IH _ Hevs). destruct ev; try discriminate Hev; reflexivity. }
  split; [reflexivity|].
  split; [vm_compute; repeat split|].
  intros env cl ok state w Hcl Hhit.
  rewrite detect_cases. cbn [fst snd]. rewrite Hhit.
  unfold Game.game_over. cbn [fst snd]. rewrite Hcl.
  destruct (Js.gt_num _ _); cbn; repeat split.
Qed.

(** ** The score of the second page *)

Section ClassicsScore.

Import Classics Canvas.

Lemma length_delete_le (l : list Obstacle.t) (k : nat) :
  (length (delete k l) <= length l)%nat.
Proof.
  revert k. induction l as [|a l IH]; intros [|k]; simpl; auto.
  specialize (IH k). lia.
Qed.

Lemma visit_tally (i : nat) (o : Obstacle.t) (acc : World * list DrawCmd) :
  obstacles acc.1 !! i = Some o -> tally (visit i o acc) = tally acc.
Proof.
  intros Hi. pose proof (lookup_lt_Some _ _ _ Hi) as Hlt.
  unfold tally, visit. destruct (off_left _); cbn [fst snd score obstacles].
  - rewrite length_delete, length_insert.
    + lia.
    + apply lookup_lt_is_Some. rewrite length_insert. exact Hlt.
  - rewrite length_insert. reflexivity.
Qed.

Lemma visit_length (i : nat) (o : Obstacle.t) (acc : World * list DrawCmd) :
  (length (obstacles (visit i o acc).1) <= length (obstacles acc.1))%nat.
Proof.
  unfold visit. destruct (off_left _); cbn [fst snd obstacles].
  - etrans; [apply length_delete_le|]. rewrite length_insert. reflexivity.
  - rewrite length_insert. reflexivity.
Qed.

Lemma forEach_from_tally (count k : nat) (acc : World * list DrawCmd) :
  tally (forEach_from k count acc) = tally acc
  /\ (length (obstacles (forEach_from k count acc).1)
      <= length (obstacles acc.1))%nat.
Proof.
  revert k acc. induction count as [|count IH]; intros k acc; simpl; [auto|].
  destruct (obstacles acc.1 !! k) as [o|] eqn:E.
  - destruct (IH (S k) (visit k o acc)) as [Ht Hl].
    rewrite Ht, (visit_tally k o acc E). split; [reflexivity|].
    pose proof (visit_length k o acc). lia.
  - apply IH.
Qed.

Lemma forEach_from_step (k count : nat) (acc : World * list DrawCmd) (o : Obstacle.t) :
  obstacles acc.1 !! k = Some o ->
  forEach_from k (S count) acc = forEach_from (S k) count (visit k o acc).
Proof. intros H. simpl. rewrite H. reflexivity. Qed.

Lemma forEach_from_beyond (count k : nat) (acc : World * list DrawCmd) :
  (length (obstacles acc.1) <= k)%nat -> forEach_from k count acc = acc.
Proof.
  revert k. induction count as [|count IH]; intros k Hk; [reflexivity|].
  simpl. rewrite (proj2 (lookup_ge_None _ _) Hk). apply IH. lia.
Qed.

(** The callback at the first obstacle not yet passed. *)
Lemma visit_middle (done rest : list Obstacle.t) (o : Obstacle.t)
    (acc : World * list DrawCmd) :
  obstacles acc.1 = done ++ o :: rest ->
  let o' := moved (gameSpeed acc.1) o in
  let r := visit (length done) o acc in
  obstacles r.1 = (if off_left o' then done ++ rest else done ++ o' :: rest)
  /\ score r.1 = (if off_left o' then score acc.1 + 1 else score acc.1)%Z
  /\ running r.1 = (if overlaps (player acc.1) o' then false else running acc.1)
  /\ player r.1 = player acc.1
  /\ gameSpeed r.1 = gameSpeed acc.1.
Proof.
  intros Hobs o' r. unfold r, visit. fold o'.
  assert (Hins : <[length done:=o']> (obstacles acc.1) = done ++ o' :: rest).
  { rewrite Hobs. replace (length done) with (length done + 0)%nat at 1 by lia.
    rewrite insert_app_r. reflexivity. }
  rewrite Hins. destruct (off_left o'); cbn [fst snd]; cbn.
  - rewrite delete_middle. auto.
  - auto.
Qed.

(** The pass from index [length done] on, over the obstacles [todo] that
    are left, is the function [swept] on them. *)
Lemma forEach_from_swept (count : nat) :
  forall (done todo : list Obstacle.t) (acc : World * list DrawCmd),
    obstacles acc.1 = done ++ todo ->
    (length todo <= count)%nat ->
    obstacles (forEach_from (length done) count acc).1
    = done ++ swept (gameSpeed acc.1) todo
    /\ score (forEach_from (length done) count acc).1
       = (score acc.1 + Z.of_nat (removed (gameSpeed acc.1) todo))%Z
    /\ running (forEach_from (length done) count acc).1
       = running acc.1 && negb (struck (player acc.1) (gameSpeed acc.1) todo).
Proof.
  induction count as [|count IH]; intros done todo acc Hobs Hlen.
  - destruct todo; [|simpl in Hlen; lia]. simpl.
    rewrite Hobs, andb_true_r, Z.add_0_r. auto.
  - destruct todo as [|o rest].
    + rewrite forEach_from_beyond by (rewrite Hobs, length_app; simpl; lia).
      simpl. rewrite Hobs, andb_true_r, Z.add_0_r. auto.
    + rewrite (forEach_from_step _ _ _ o) by (rewrite Hobs; apply list_lookup_middle; reflexivity).
      destruct (visit_middle done rest o acc Hobs) as (Ho & Hs & Hr & Hp & Hg).
      cbv zeta in Ho, Hs, Hr.
      set (acc' := visit (length done) o acc) in *.
      cbn [swept removed struck].
      destruct (off_left (moved (gameSpeed acc.1) o)).
      * destruct rest as [|o2 rest'].
        -- rewrite forEach_from_beyond by (rewrite Ho, length_app; simpl; lia).
           rewrite Ho, Hs, Hr, app_nil_r.
           destruct (overlaps _ _); cbn; rewrite ?andb_false_r, ?andb_true_r; auto.
        -- replace (S (length done)) with (length (done ++ [o2]))
             by (rewrite length_app; simpl; lia).
           destruct (IH (done ++ [o2]) rest' acc') as (I1 & I2 & I3).
           { rewrite Ho, <- app_assoc. reflexivity. }
           { simpl in Hlen. lia. }
           rewrite I1, I2, I3, Hs, Hr, Hp, Hg, <- app_assoc. cbn [app].
           split; [reflexivity|]. split; [lia|].
           destruct (overlaps _ _); cbn; rewrite ?andb_false_r; reflexivity.
      * replace (S (length done)) with (length (done ++ [moved (gameSpeed acc.1) o]))
          by (rewrite length_app; simpl; lia).
        destruct (IH (done ++ [moved (gameSpeed acc.1) o]) rest acc') as (I1 & I2 & I3).
        { rewrite Ho, <- app_assoc. reflexivity. }
        { simpl in Hlen. lia. }
        rewrite I1, I2, I3, Hs, Hr, Hp, Hg, <- app_assoc. cbn [app].
        split; [reflexivity|]. split; [reflexivity|].
        destruct (overlaps _ _); cbn; rewrite ?andb_false_r; reflexivity.
Qed.

Lemma forEach_swept (acc : World * list DrawCmd) :
  obstacles (forEach acc).1 = swept (gameSpeed acc.1) (obstacles acc.1)
  /\ score (forEach acc).1
     = (score acc.1 + Z.of_nat (removed (gameSpeed acc.1) (obstacles acc.1)))%Z
  /\ running (forEach acc).1
     = running acc.1
       && negb (struck (player acc.1) (gameSpeed acc.1) (obstacles acc.1)).
Proof.
  unfold forEach.
  apply (forEach_from_swept (length (obstacles acc.1)) [] (obstacles acc.1) acc);
    [reflexivity | lia].
Qed.

(** The pass as a function: what it does when nothing leaves the screen,
    and that each removal shortens the array by one. *)
Lemma swept_none (speed : Q) (l : list Obstacle.t) :
  (forall o, In o l -> off_left (moved speed o) = false) ->
  swept speed l = map (moved speed) l /\ removed speed l = 0%nat.
Proof.
  induction l as [|o l IH]; intros H; [auto|].
  simpl. rewrite (H o) by (left; reflexivity).
  destruct IH as [-> ->]; [intros o' Ho'; apply H; right; exact Ho'|]. auto.
Qed.

Lemma swept_length (speed : Q) (l : list Obstacle.t) :
  (length (swept speed l) + removed speed l)%nat = length l.
Proof.
  assert (H : forall n l, (length l <= n)%nat ->
              (length (swept speed l) + removed speed l)%nat = length l).
  { clear l. induction n as [|n IH]; intros l Hl.
    - destruct l; [reflexivity | simpl in Hl; lia].
    - destruct l as [|o rest]; [reflexivity|]. simpl in Hl. simpl.
      destruct (off_left (moved speed o)).
      + destruct rest as [|o2 rest']; [reflexivity|]. simpl in Hl. simpl.
        pose proof (IH rest'). lia.
      + simpl. pose proof (IH rest). lia. }
  apply (H (length l)). lia.
Qed.

Lemma step_player_cells (env : Env) (w : World) :
  score (step_player env w) = score w
  /\ obstacles (step_player env w) = obstacles w.
Proof. unfold step_player. destruct (Js.gtb _ _); auto. Qed.

Lemma maybe_spawn_cells (env : Env) (rnd : Q) (w : World) :
  score (maybe_spawn env rnd w) = score w
  /\ obstacles (maybe_spawn env rnd w)
     = obstacles w ++ (if (frame w mod 100 =? 0)%nat then [spawnObstacle env rnd] else []).
Proof.
  unfold maybe_spawn. destruct (_ =? _)%nat; simpl; [auto|].
  rewrite app_nil_r. auto.
Qed.

Lemma loop_running (env : Env) (rnd : Q) (w : World) :
  running w = true ->
  (length (obstacles (loop env rnd w).1)
   <= length (obstacles (maybe_spawn env rnd (step_player env w))))%nat
  /\ (score (loop env rnd w).1 + Z.of_nat (length (obstacles (loop env rnd w).1))
      = score w
        + Z.of_nat (length (obstacles (maybe_spawn env rnd (step_player env w)))))%Z.
Proof.
  intros Hr. unfold loop. rewrite Hr. cbn [negb fst snd obstacles score].
  unfold forEach. cbn [fst].
  match goal with |- context [forEach_from ?k ?n ?a] =>
    destruct (forEach_from_tally n k a) as [Ht Hl]
  end.
  unfold tally in Ht. cbn [fst] in Ht, Hl.
  destruct (maybe_spawn_cells env rnd (step_player env w)) as [Hs _].
  destruct (step_player_cells env w) as [Hp _].
  rewrite Hs, Hp in Ht. split; [exact Hl | exact Ht].
Qed.

Lemma loop_swept (env : Env) (rnd : Q) (w : World) :
  running w = true ->
  obstacles (loop env rnd w).1
  = swept (gameSpeed w) (obstacles (maybe_spawn env rnd (step_player env w)))
  /\ score (loop env rnd w).1
     = (score w
        + Z.of_nat (removed (gameSpeed w)
                      (obstacles (maybe_spawn env rnd (step_player env w)))))%Z.
Proof.
  intros Hr. unfold loop. rewrite Hr. cbn [negb fst snd obstacles score].
  match goal with |- context [forEach ?a] =>
    destruct (forEach_swept a) as (Ho & Hs & _)
  end.
  cbn [fst] in Ho, Hs. rewrite Ho, Hs.
  destruct (maybe_spawn_cells env rnd (step_player env w)) as [-> _].
  destruct (step_player_cells env w) as [-> _].
  assert (Hg : gameSpeed (maybe_spawn env rnd (step_player env w)) = gameSpeed w).
  { unfold maybe_spawn, step_player.
    destruct (_ =? _)%nat; destruct (Js.gtb _ _); reflexivity. }
  rewrite Hg. auto.
Qed.

End ClassicsScore.

(** C10.  In the second page the score moves only in the obstacle pass of
    a frame, and the pass applies the callback along the array.  The
    callback, on the obstacle found at index [i], first moves it; if its
    right edge is then left of 0 it splices exactly that obstacle out and
    adds exactly 1, and otherwise it leaves the score alone.  Over a frame of
    a running game the array becomes [swept] of the array after spawning and
    the score grows by [removed] of it, the number of obstacles taken out:
    one for each obstacle the pass finds left of the screen, none when it
    finds none (then every obstacle is just moved), and the array is shorter
    by exactly that number.  The player step, spawning and [jump] leave the
    score alone, and a stopped game's frame changes nothing. *)
Theorem classics_score_counts_removed (env : Classics.Env) (rnd : Q) (w : Classics.World) :
  (forall o : Obstacle.t,
      Classics.off_left o = true <-> Obstacle.x o + Obstacle.width o < 0)
  /\ (forall (i : nat) (o : Obstacle.t) (acc : Classics.World * list Canvas.DrawCmd),
         Classics.obstacles acc.1 !! i = Some o ->
         if Classics.off_left (Classics.moved (Classics.gameSpeed acc.1) o) then
           Classics.obstacles (Classics.visit i o acc).1 = delete i (Classics.obstacles acc.1)
           /\ Classics.score (Classics.visit i o acc).1 = (Classics.score acc.1 + 1)%Z
         else
           Classics.obstacles (Classics.visit i o acc).1
           = <[i := Classics.moved (Classics.gameSpeed acc.1) o]> (Classics.obstacles acc.1)
           /\ Classics.score (Classics.visit i o acc).1 = Classics.score acc.1)
  /\ (if Classics.running w then
        let before := Classics.obstacles
                        (Classics.maybe_spawn env rnd (Classics.step_player env w)) in
        let after := Classics.obstacles (Classics.loop env rnd w).1 in
        after = Classics.swept (Classics.gameSpeed w) before
        /\ Classics.score (Classics.loop env rnd w).1
           = (Classics.score w
              + Z.of_nat (Classics.removed (Classics.gameSpeed w) before))%Z
        /\ (length after + Classics.removed (Classics.gameSpeed w) before)%nat
           = length before
        /\ (length after <= length before)%nat
        /\ Classics.score (Classics.loop env rnd w).1
           = (Classics.score w + Z.of_nat (length before - length after))%Z
      else Classics.loop env rnd w = (w, []))
  /\ (forall (speed : Q) (o : Obstacle.t) (rest : list Obstacle.t),
         if Classics.off_left (Classics.moved speed o) then
           Classics.removed speed (o :: rest) = S (Classics.removed speed (tail rest))
           /\ Classics.swept speed (o :: rest)
              = match rest with
                | [] => []
                | o2 :: rest' => o2 :: Classics.swept speed rest'
                end
         else
           Classics.removed speed (o :: rest) = Classics.removed speed rest
           /\ Classics.swept speed (o :: rest)
              = Classics.moved speed o :: Classics.swept speed rest)
  /\ (forall (speed : Q) (l : list Obstacle.t),
         (forall o, In o l -> Classics.off_left (Classics.moved speed o) = false) ->
         Classics.swept speed l = map (Classics.moved speed) l
         /\ Classics.removed speed l = 0%nat)
  /\ Classics.score (Classics.step_player env w) = Classics.score w
  /\ Classics.score (Classics.maybe_spawn env rnd w) = Classics.score w
  /\ (forall c : bool, Classics.score (Classics.jump env c w) = Classics.score w).
Proof.
  split; [intros o; apply JsFacts.ltb_lt|].
  split.
  { intros i o acc Hi. unfold Classics.visit.
    destruct (Classics.off_left _); cbn [fst snd Classics.obstacles Classics.score].
    - split; [|reflexivity].
      rewrite !delete_take_drop, take_insert_ge, drop_insert_lt by lia. reflexivity.
    - auto. }
  split.
  { destruct (Classics.running w) eqn:Hr.
    - cbv zeta. destruct (loop_swept env rnd w Hr) as (Ho & Hs).
      pose proof (swept_length (Classics.gameSpeed w)
                    (Classics.obstacles
                       (Classics.maybe_spawn env rnd (Classics.step_player env w)))) as Hl.
      rewrite <- Ho in Hl. repeat split; try assumption; lia.
    - unfold Classics.loop. rewrite Hr. reflexivity. }
  split.
  { intros speed o rest. simpl. destruct (Classics.off_left _); [|auto].
    destruct rest; auto. }
  split; [apply swept_none|].
  split; [apply step_player_cells|].
  split; [apply maybe_spawn_cells|].
  intros c. unfold Classics.jump. destruct (_ && _); reflexivity.
Qed.

(** A frame that removes the first obstacle: the score goes from 3 to 4.
    The obstacle behind it takes the freed index, which the pass has already
    left, so it is neither moved nor tested in this frame. *)
Example classics_frame_removes_one :
  Classics.score
    (Classics.loop (Classics.mkEnv 800 500) 0
       (Classics.mkWorld (Classics.mkPlayer 50 320 50 50 0 1)
          [Obstacle.mk (-36) 350 40 40; Obstacle.mk 500 350 40 40] 6 7 true 3 false)).1
  = 4%Z
  /\ Classics.obstacles
       (Classics.loop (Classics.mkEnv 800 500) 0
          (Classics.mkWorld (Classics.mkPlayer 50 320 50 50 0 1)
             [Obstacle.mk (-36) 350 40 40; Obstacle.mk 500 350 40 40] 6 7 true 3 false)).1
     = [Obstacle.mk 500 350 40 40].
Proof. vm_compute. split; reflexivity. Qed.

(** * Further properties of the first page *)

(** ** The high score across page loads *)

Section Persistence.

Import Game.

Lemma String_of_Z_nonempty (z : Z) : String.eqb (Js.String_of_Z z) "" = false.
Proof.
  destruct z as [|p|p]; try reflexivity.
  unfold Js.String_of_Z. cbn [Z.to_int NilZero.string_of_int NilZero.string_of_uint].
  pose proof (DecimalPos.Unsigned.to_uint_nonnil p) as Hnn.
  destruct (Pos.to_uint p); try contradiction; reflexivity.
Qed.

Lemma initial_highScore_stored (store : gmap string string) (z : Z) :
  store !! highscore_key = Some (Js.String_of_Z z) ->
  initial_highScore true store = Js.Fin (inject_Z z).
Proof.
  intros H. unfold initial_highScore. rewrite H, String_of_Z_nonempty.
  apply Number_of_String.
Qed.

End Persistence.

(** X1.  A high score that game over writes is the high score the next page
    load starts with: when an obstacle hits, the score beats the loop's high
    score and the write succeeds, reading the resulting store at start-up
    yields exactly the session's score. *)
Theorem stored_high_score_reads_back
    (env : Game.Env) (cl : Game.Closure) (state : State.t) (w : Game.World) :
  existsb (Game.hits env (State.player state)) (State.obstacles state) = true ->
  Js.gt_num (inject_Z (State.score state)) (Game.c_highScore cl) = true ->
  Game.initial_highScore true (Game.localStorage (Game.detect env cl true (state, w)).2)
  = Js.Fin (inject_Z (State.score state)).
Proof.
  intros Hhit Hgt. rewrite detect_cases. cbn [fst snd]. rewrite Hhit.
  unfold Game.game_over. cbn [fst snd]. rewrite Hgt. cbn [snd Game.localStorage].
  apply initial_highScore_stored. unfold Game.try_setItem. apply lookup_insert_eq.
Qed.

Lemma stored_high_score_reads_back_witness :
  Game.initial_highScore true
    (Game.localStorage
       (Game.detect (Game.mkEnv 800 420 1) (Game.mkClosure false 0 (Js.Fin 12)) true
          (State.mk (Player.mk 80 280 0 44 44 true) [Obstacle.mk 100 0 40 60]
             1160 520 30 true 0,
           Game.mkWorld true 30 (Js.Fin 12) false 4000 None {[ "classic-highscore" := "12" ]})).2)
  = Js.Fin (inject_Z 30).
Proof.
  apply (stored_high_score_reads_back (Game.mkEnv 800 420 1)
           (Game.mkClosure false 0 (Js.Fin 12))).
  - vm_compute. reflexivity.
  - vm_compute. reflexivity.
Defined.

(** ** The time step *)

(** X2.  The time step of a frame is never above 40 ms; it is not negative
    when the timestamp is not before the previous one; it is zero on the
    first frame after the clock was cleared (page load, restart); and after
    a gap of 40 ms or more it is exactly 40 ms. *)
Theorem frame_dt_bounds (ts last : Q) :
  Game.frame_dt ts last <= 40 / 1000
  /\ (last <= ts -> 0 <= Game.frame_dt ts last)
  /\ (last == 0 -> Game.frame_dt ts last == 0)
  /\ (~ last == 0 -> 40 <= ts - last -> Game.frame_dt ts last == 40 / 1000)
  /\ (~ last == 0 -> ts - last <= 40 -> Game.frame_dt ts last == (ts - last) / 1000).
Proof.
  split; [apply frame_dt_clamped|].
  split; [apply frame_dt_nonneg|].
  unfold Game.frame_dt. repeat split.
  - intros H0. apply Qeq_bool_iff in H0. rewrite H0.
    rewrite Q.min_r by lra. field.
  - intros Hn Hgap.
    destruct (Qeq_bool last 0) eqn:E; [apply Qeq_bool_iff in E; contradiction|].
    rewrite Q.min_l by exact Hgap. reflexivity.
  - intros Hn Hgap.
    destruct (Qeq_bool last 0) eqn:E; [apply Qeq_bool_iff in E; contradiction|].
    rewrite Q.min_r by exact Hgap. reflexivity.
Qed.

(** ** Obstacles *)

Section Obstacles.

Import Game.

Lemma new_obstacle_ranges (cw : Q) (rnd : Random3) :
  unit_interval (rnd_height rnd) -> unit_interval (rnd_width rnd) ->
  28 <= Obstacle.width (new_obstacle cw rnd) /\ Obstacle.width (new_obstacle cw rnd) < 76
  /\ 36 <= Obstacle.height (new_obstacle cw rnd)
  /\ Obstacle.height (new_obstacle cw rnd) < 100
  /\ Obstacle.y (new_obstacle cw rnd) == 0.
Proof.
  unfold unit_interval, new_obstacle. simpl. intros [Hh0 Hh1] [Hw0 Hw1].
  repeat split; lra.
Qed.

Lemma on_screen_iff (o : Obstacle.t) :
  on_screen o = true <-> -100 < Obstacle.x o + Obstacle.width o.
Proof. apply JsFacts.gtb_gt. Qed.

End Obstacles.

(** X3.  After an update step every obstacle of the session still reaches
    right of x = -100: the ones that scrolled further are gone, the others
    kept their order, size and height and moved left by [speed * dt], and
    a new one starts right of the canvas.  (Canvas width not negative,
    random numbers in [0, 1).) *)
Theorem obstacles_stay_in_reach
    (env : Game.Env) (dt : Q) (rnd : Game.Random3) (state : State.t) :
  0 <= Game.canvas_width env ->
  Game.unit_interval (Game.rnd_gap rnd) ->
  Game.unit_interval (Game.rnd_width rnd) ->
  Forall (fun o => -100 < Obstacle.x o + Obstacle.width o)
    (State.obstacles (Game.physics env dt rnd state))
  /\ exists spawned,
       State.obstacles (Game.physics env dt rnd state)
       = List.filter Game.on_screen
           (map (Game.move_obstacle (State.speed state * dt)) (State.obstacles state))
         ++ spawned
       /\ (length spawned <= 1)%nat
       /\ Forall (fun o => Game.canvas_width env + 360 <= Obstacle.x o) spawned.
Proof.
  intros Hcw Hgap Hw.
  pose proof (physics_obstacles env dt rnd state) as Hobs. cbv zeta in Hobs.
  destruct (spawn_gap_range rnd Hgap) as [Hlo _].
  change Config.obstacleMinGap with 360 in Hlo.
  assert (Hx : Game.canvas_width env + 360
               <= Obstacle.x (Game.new_obstacle (Game.canvas_width env) rnd)).
  { unfold Game.new_obstacle. cbn [Obstacle.x]. lra. }
  assert (Hwd : 28 <= Obstacle.width (Game.new_obstacle (Game.canvas_width env) rnd)).
  { unfold Game.new_obstacle. cbn [Obstacle.width]. destruct Hw as [Hw0 _]. lra. }
  split.
  - rewrite Hobs. apply Forall_app. split.
    + apply Forall_forall. intros o Ho.
      apply list_elem_of_In, filter_In in Ho. apply on_screen_iff, Ho.
    + destruct (Game.should_spawn env _); [|constructor].
      constructor; [lra | constructor].
  - eexists. split; [exact Hobs|].
    destruct (Game.should_spawn env _); simpl; split; auto.
Qed.

Lemma obstacles_stay_in_reach_witness :
  Forall (fun o => -100 < Obstacle.x o + Obstacle.width o)
    (State.obstacles
       (Game.physics (Game.resize 800 420 1) (40 / 1000) (Game.mkRandom (1 # 2) 0 (1 # 4))
          (State.mk (Player.mk 80 280 0 44 44 true)
             [Obstacle.mk (-150) 0 40 60; Obstacle.mk 300 0 40 60] 1160 500 3 true 0)))
  /\ exists spawned,
       State.obstacles
         (Game.physics (Game.resize 800 420 1) (40 / 1000) (Game.mkRandom (1 # 2) 0 (1 # 4))
            (State.mk (Player.mk 80 280 0 44 44 true)
               [Obstacle.mk (-150) 0 40 60; Obstacle.mk 300 0 40 60] 1160 500 3 true 0))
       = List.filter Game.on_screen
           (map (Game.move_obstacle
                   (State.speed
                      (State.mk (Player.mk 80 280 0 44 44 true)
                         [Obstacle.mk (-150) 0 40 60; Obstacle.mk 300 0 40 60]
                         1160 500 3 true 0) * (40 / 1000)))
              (State.obstacles
                 (State.mk (Player.mk 80 280 0 44 44 true)
                    [Obstacle.mk (-150) 0 40 60; Obstacle.mk 300 0 40 60]
                    1160 500 3 true 0)))
         ++ spawned
       /\ (length spawned <= 1)%nat
       /\ Forall (fun o => Game.canvas_width (Game.resize 800 420 1) + 360 <= Obstacle.x o)
            spawned.
Proof.
  apply (obstacles_stay_in_reach (Game.resize 800 420 1) (40 / 1000)
           (Game.mkRandom (1 # 2) 0 (1 # 4))).
  - vm_compute. discriminate.
  - split; vm_compute; [discriminate | reflexivity].
  - split; vm_compute; [discriminate | reflexivity].
Defined.

(** X4.  A spawned obstacle is between 28 and 76 wide and between 36 and 100
    high (upper ends excluded), its stored [y] is zero, and the state
    remembers its [x] as [lastSpawnX]. *)
Theorem spawned_obstacle_size (cw : Q) (rnd : Game.Random3) (state : State.t) :
  Game.unit_interval (Game.rnd_height rnd) ->
  Game.unit_interval (Game.rnd_width rnd) ->
  exists o,
    last (State.obstacles (Game.spawnObstacle cw rnd state)) = Some o
    /\ State.lastSpawnX (Game.spawnObstacle cw rnd state) = Obstacle.x o
    /\ 28 <= Obstacle.width o /\ Obstacle.width o < 76
    /\ 36 <= Obstacle.height o /\ Obstacle.height o < 100
    /\ Obstacle.y o == 0
    /\ length (State.obstacles (Game.spawnObstacle cw rnd state))
       = S (length (State.obstacles state)).
Proof.
  intros Hh Hw. exists (Game.new_obstacle cw rnd).
  destruct (new_obstacle_ranges cw rnd Hh Hw) as (H1 & H2 & H3 & H4 & H5).
  unfold Game.spawnObstacle. cbn [State.obstacles State.lastSpawnX].
  rewrite last_snoc, length_app. simpl.
  repeat split; try assumption. lia.
Qed.

Lemma spawned_obstacle_size_witness :
  exists o,
    last (State.obstacles
            (Game.spawnObstacle 800 (Game.mkRandom 0 (1 # 2) (1 # 2)) Game.resetGameState))
    = Some o
    /\ State.lastSpawnX
         (Game.spawnObstacle 800 (Game.mkRandom 0 (1 # 2) (1 # 2)) Game.resetGameState)
       = Obstacle.x o
    /\ 28 <= Obstacle.width o /\ Obstacle.width o < 76
    /\ 36 <= Obstacle.height o /\ Obstacle.height o < 100
    /\ Obstacle.y o == 0
    /\ length (State.obstacles
                 (Game.spawnObstacle 800 (Game.mkRandom 0 (1 # 2) (1 # 2))
                    Game.resetGameState))
       = S (length (State.obstacles Game.resetGameState)).
Proof.
  apply (spawned_obstacle_size 800 (Game.mkRandom 0 (1 # 2) (1 # 2)) Game.resetGameState).
  - split; vm_compute; [discriminate | reflexivity].
  - split; vm_compute; [discriminate | reflexivity].
Defined.

(** ** What holds over a whole run of the page *)

Section Runs.

Import Game.

(** A property kept by every event is kept by every run. *)
Lemma run_invariant (P : World * Closure -> Prop) (evs : list Event)
    (wc : World * Closure) :
  (forall ev acc, P acc -> P (step ev acc)) -> P wc -> P (run evs wc).
Proof.
  intros Hstep. revert wc. induction evs as [|ev evs IH]; intros wc H; [exact H|].
  apply (IH (step ev wc)), Hstep, H.
Qed.

Lemma step_frozen (st : State.t) (w0 : World) (ev : Event) (wc : World * Closure) :
  State.running st = false -> is_restart ev = false ->
  frozen st w0 wc -> frozen st w0 (step ev wc).
Proof.
  intros Hover Hev (Hs & Hr & Hsc & Hh & Hl).
  destruct ev as [env fr| | |]; try discriminate; unfold frozen; cbn [step fst snd].
  - rewrite (loop_skip env wc.2 fr wc.1).
    + rewrite Hs. cbn. auto.
    + rewrite Hs. cbn. rewrite Hover. apply andb_false_r.
  - assert (Hj : jump wc.1 = wc.1).
    { unfold jump. rewrite Hs, Hover. reflexivity. }
    rewrite Hj. auto.
  - cbn. auto.
Qed.

Lemma publish_score_cells (cl : Closure) (st : State.t) (w : World) :
  running (publish_score cl st w) = running w
  /\ highScore (publish_score cl st w) = highScore w
  /\ localStorage (publish_score cl st w) = localStorage w
  /\ paused (publish_score cl st w) = paused w.
Proof. unfold publish_score. destruct (_ >? _)%Z; auto. Qed.

Lemma update_flags (env : Env) (cl : Closure) (fr : Frame) (dt : Q)
    (st : State.t) (w : World) :
  running w = State.running st ->
  running (update env cl fr dt st w).2 = State.running (update env cl fr dt st w).1.
Proof.
  intros H. unfold update. rewrite detect_cases. cbn [fst snd].
  destruct (existsb _ _).
  - unfold game_over. destruct (Js.gt_num _ _); reflexivity.
  - cbn [fst snd]. destruct (publish_score_cells cl (physics env dt (random fr) st) w) as [-> _].
    rewrite physics_running. exact H.
Qed.

Lemma loop_world (env : Env) (cl : Closure) (fr : Frame) (w : World) :
  negb (c_paused cl) && State.running (default resetGameState (gameStateRef w)) = true ->
  let r := update env cl fr (frame_dt (timestamp fr) (lastTimeRef w))
             (default resetGameState (gameStateRef w))
             (mkWorld (running w) (score w) (highScore w) (paused w) (timestamp fr)
                (Some (default resetGameState (gameStateRef w))) (localStorage w)) in
  gameStateRef (loop env cl fr w).1 = Some r.1
  /\ running (loop env cl fr w).1 = running r.2.
Proof. intros H r. unfold loop. rewrite H. cbn. auto. Qed.

Lemma step_flags_agree (ev : Event) (wc : World * Closure) :
  flags_agree wc -> flags_agree (step ev wc).
Proof.
  intros (st & Hs & Hr). destruct ev as [env fr| | |]; unfold flags_agree; cbn [step fst snd].
  - destruct (negb (c_paused wc.2)
              && State.running (default resetGameState (gameStateRef wc.1))) eqn:E.
    + destruct (loop_world env wc.2 fr wc.1 E) as [H1 H2]. cbv zeta in H1, H2.
      eexists. split; [exact H1|]. rewrite H2. apply update_flags.
      rewrite Hs. exact Hr.
    + rewrite (loop_skip env wc.2 fr wc.1 E). rewrite Hs. cbn. eauto.
  - unfold jump. rewrite Hs.
    destruct (negb (State.running st)); [rewrite Hs; eauto|].
    destruct (Player.grounded (State.player st)); [|rewrite Hs; eauto].
    cbn. eauto.
  - cbn. eauto.
  - cbn. eauto.
Qed.

Lemma step_player_shape (env : Env) (dt : Q) (p : Player.t) :
  Player.x (step_player env dt p) = Player.x p
  /\ Player.width (step_player env dt p) = Player.width p
  /\ Player.height (step_player env dt p) = Player.height p.
Proof. unfold step_player. destruct (Js.geb _ _); auto. Qed.

Lemma step_keeps_player_shape (ev : Event) (wc : World * Closure) :
  player_shape wc -> player_shape (step ev wc).
Proof.
  intros (st & Hs & Hx & Hw & Hh).
  destruct ev as [env fr| | |]; unfold player_shape; cbn [step fst snd].
  - destruct (negb (c_paused wc.2)
              && State.running (default resetGameState (gameStateRef wc.1))) eqn:E.
    + destruct (loop_world env wc.2 fr wc.1 E) as [H1 _]. cbv zeta in H1.
      eexists. split; [exact H1|]. unfold update.
      match goal with |- context [detect ?e ?c ?o ?sw] =>
        destruct (detect_physics e c o sw) as (Hp & _)
      end.
      rewrite Hp. cbn [fst]. rewrite physics_player, Hs. cbn.
      destruct (step_player_shape env (frame_dt (timestamp fr) (lastTimeRef wc.1))
                  (State.player st)) as (-> & -> & ->). auto.
    + rewrite (loop_skip env wc.2 fr wc.1 E). rewrite Hs. cbn. eauto.
  - unfold jump. rewrite Hs.
    destruct (negb (State.running st)); [rewrite Hs; eauto|].
    destruct (Player.grounded (State.player st)); [|rewrite Hs; eauto].
    cbn. eauto 10.
  - cbn. eexists. split; [reflexivity|]. auto.
  - cbn. eauto.
Qed.

End Runs.

(** X5.  Game over is final until restart: once the session's [running] is
    false, no sequence of frames, jumps and pause toggles changes the
    session state, the displayed score and run flag, the high score or the
    store. *)
Theorem game_over_is_final
    (evs : list Game.Event) (wc : Game.World * Game.Closure) (st : State.t) :
  Game.gameStateRef wc.1 = Some st ->
  State.running st = false ->
  existsb Game.is_restart evs = false ->
  Game.gameStateRef (Game.run evs wc).1 = Some st
  /\ Game.running (Game.run evs wc).1 = Game.running wc.1
  /\ Game.score (Game.run evs wc).1 = Game.score wc.1
  /\ Game.highScore (Game.run evs wc).1 = Game.highScore wc.1
  /\ Game.localStorage (Game.run evs wc).1 = Game.localStorage wc.1.
Proof.
  intros Hs Hover. revert wc Hs.
  induction evs as [|ev evs IH]; intros wc Hs Hnr; [simpl; auto|].
  simpl in Hnr. apply orb_false_iff in Hnr. destruct Hnr as [Hev Hevs].
  change (Game.run (ev :: evs) wc) with (Game.run evs (Game.step ev wc)).
  destruct (step_frozen st wc.1 ev wc Hover Hev) as (H1 & H2 & H3 & H4 & H5);
    [unfold Game.frozen; auto|].
  destruct (IH (Game.step ev wc) H1 Hevs) as (G1 & G2 & G3 & G4 & G5).
  rewrite G1, G2, G3, G4, G5. auto.
Qed.

Lemma game_over_is_final_witness :
  let env := Game.mkEnv 800 420 1 in
  let tick t := Game.Tick env (Game.mkFrame t (Game.mkRandom 0 0 0) true) in
  let st := State.mk (Player.mk 80 280 0 44 44 true) [Obstacle.mk 100 0 40 60]
              1160 520 30 false 12 in
  let w := Game.mkWorld false 30 (Js.Fin 30) false 4000 (Some st)
             {[ "classic-highscore" := "30" ]} in
  let evs := [tick 4016; Game.Jump; Game.TogglePause; tick 4032; Game.TogglePause; tick 4048] in
  Game.gameStateRef (Game.run evs (w, Game.capture w)).1 = Some st
  /\ Game.running (Game.run evs (w, Game.capture w)).1 = Game.running (w, Game.capture w).1
  /\ Game.score (Game.run evs (w, Game.capture w)).1 = Game.score (w, Game.capture w).1
  /\ Game.highScore (Game.run evs (w, Game.capture w)).1
     = Game.highScore (w, Game.capture w).1
  /\ Game.localStorage (Game.run evs (w, Game.capture w)).1
     = Game.localStorage (w, Game.capture w).1.
Proof.
  intros env tick st w evs.
  apply (game_over_is_final evs (w, Game.capture w) st); reflexivity.
Defined.

(** X6.  From page load on, whatever happens (frames, jumps, restarts, pause
    toggles), the component always holds a session, and its [running] cell,
    which decides whether the Game Over panel shows, equals the session's
    [running] flag. *)
Theorem running_flags_agree (evs : list Game.Event) (store : gmap string string) :
  exists st,
    Game.gameStateRef (Game.run evs (Game.mount store)).1 = Some st
    /\ Game.running (Game.run evs (Game.mount store)).1 = State.running st.
Proof.
  apply (run_invariant Game.flags_agree evs (Game.mount store)).
  - intros ev acc. apply step_flags_agree.
  - exists Game.resetGameState. split; reflexivity.
Qed.

(** X7.  From page load on, the player never leaves its column and never
    changes size: x = 80, width = height = 44 after any events. *)
Theorem player_keeps_column_and_size (evs : list Game.Event) (store : gmap string string) :
  exists st,
    Game.gameStateRef (Game.run evs (Game.mount store)).1 = Some st
    /\ Player.x (State.player st) = 80
    /\ Player.width (State.player st) = 44
    /\ Player.height (State.player st) = 44.
Proof.
  apply (run_invariant Game.player_shape evs (Game.mount store)).
  - intros ev acc. apply step_keeps_player_shape.
  - exists Game.resetGameState. repeat split; reflexivity.
Qed.

(** ** Player and obstacles *)

Section Contact.

Import Game.

Lemma hits_iff (env : Env) (p : Player.t) (o : Obstacle.t) :
  hits env p o = true <->
  Obstacle.x o <= Player.x p + Player.width p
  /\ Player.x p <= Obstacle.x o + Obstacle.width o
  /\ canvas_height env / dpr env - Config.groundHeight - Obstacle.height o
     <= Player.y p + Player.height p
  /\ Player.y p <= canvas_height env / dpr env - Config.groundHeight.
Proof.
  unfold hits. rewrite rectsCollide_iff. cbn.
  split; intros (H1 & H2 & H3 & H4); repeat split; try assumption; lra.
Qed.

End Contact.

(** X8.  A player standing on the ground line cannot let an obstacle pass:
    whenever their horizontal extents meet, the collision test holds,
    whatever the obstacle's height (not negative).  A player whose feet are
    above the top of the obstacle is not hit. *)
Theorem grounded_player_is_hit (env : Game.Env) (p : Player.t) (o : Obstacle.t) :
  Player.y p == Game.groundY env p ->
  0 <= Player.height p -> 0 <= Obstacle.height o ->
  Obstacle.x o <= Player.x p + Player.width p ->
  Player.x p <= Obstacle.x o + Obstacle.width o ->
  Game.hits env p o = true
  /\ (forall p' : Player.t,
         Player.y p' + Player.height p'
         < Game.canvas_height env / Game.dpr env - Config.groundHeight - Obstacle.height o ->
         Game.hits env p' o = false).
Proof.
  intros Hy Hph Hoh Hx1 Hx2. split.
  - apply hits_iff. unfold Game.groundY, Config.player_startYOffset in Hy.
    repeat split; try assumption; rewrite Hy; lra.
  - intros p' Habove. apply not_true_is_false. rewrite hits_iff.
    intros (_ & _ & H & _). lra.
Qed.

Lemma grounded_player_is_hit_witness :
  Game.hits (Game.mkEnv 800 420 1) (Player.mk 80 280 0 44 44 true) (Obstacle.mk 124 0 30 36)
  = true
  /\ (forall p' : Player.t,
         Player.y p' + Player.height p'
         < Game.canvas_height (Game.mkEnv 800 420 1) / Game.dpr (Game.mkEnv 800 420 1)
           - Config.groundHeight - Obstacle.height (Obstacle.mk 124 0 30 36) ->
         Game.hits (Game.mkEnv 800 420 1) p' (Obstacle.mk 124 0 30 36) = false).
Proof.
  apply (grounded_player_is_hit (Game.mkEnv 800 420 1) (Player.mk 80 280 0 44 44 true)
           (Obstacle.mk 124 0 30 36)); vm_compute; try reflexivity; discriminate.
Defined.

(** X9.  A jump shows on the next frame: for a running session with the
    player grounded on the ground line, [jump] followed by an update with
    [0 < dt <= 40 ms] leaves the player strictly above the line, moving up,
    and not grounded. *)
Theorem jump_lifts_player
    (env : Game.Env) (cl : Game.Closure) (fr : Game.Frame) (dt : Q)
    (w : Game.World) (state : State.t) :
  Game.gameStateRef w = Some state ->
  State.running state = true ->
  Player.grounded (State.player state) = true ->
  Player.y (State.player state) == Game.groundY env (State.player state) ->
  0 < dt -> dt <= 40 / 1000 ->
  exists jumped,
    Game.gameStateRef (Game.jump w) = Some jumped
    /\ Player.y (State.player (Game.update env cl fr dt jumped (Game.jump w)).1)
       < Game.groundY env (State.player state)
    /\ Player.vy (State.player (Game.update env cl fr dt jumped (Game.jump w)).1) < 0
    /\ Player.grounded (State.player (Game.update env cl fr dt jumped (Game.jump w)).1)
       = false.
Proof.
  intros Hs Hr Hg Hy Hdt0 Hdt1.
  unfold Game.jump. rewrite Hs, Hr, Hg. cbn [negb].
  eexists. split; [reflexivity|].
  unfold Game.update.
  match goal with |- context [Game.detect ?e ?c ?o ?sw] =>
    destruct (detect_physics e c o sw) as (Hp & _)
  end.
  rewrite Hp. cbn [fst]. rewrite physics_player. cbn [State.player].
  set (p := Player.mk _ _ _ _ _ _).
  assert (Hgy : Game.groundY env p = Game.groundY env (State.player state)) by reflexivity.
  assert (Hlt : Game.integrate_y dt p < Game.groundY env p).
  { rewrite Hgy, <- Hy. unfold Game.integrate_y, Game.integrate_vy, p.
    cbn [Player.y Player.vy]. unfold Game.jump_impulse, Config.gravity.
    assert (Hd : dt <= 1 # 25)
      by (eapply Qle_trans; [exact Hdt1 | vm_compute; discriminate]).
    assert (H : 0 < (820 - 2000 * dt) * dt)
      by (apply Qmult_lt_0_compat; [lra | exact Hdt0]).
    lra. }
  unfold Game.step_player.
  apply JsFacts.geb_lt in Hlt as Hb. rewrite Hb. cbn.
  rewrite <- Hgy. split; [exact Hlt|]. split; [|reflexivity].
  unfold Game.integrate_vy, p. cbn. unfold Game.jump_impulse, Config.gravity.
  assert (Hd : dt <= 1 # 25)
    by (eapply Qle_trans; [exact Hdt1 | vm_compute; discriminate]).
  lra.
Qed.

Lemma jump_lifts_player_witness :
  let env := Game.mkEnv 800 420 1 in
  let cl := Game.mkClosure false 0 (Js.Fin 0) in
  let fr := Game.mkFrame 1016 (Game.mkRandom 0 0 0) true in
  let state := State.mk (Player.mk 80 280 0 44 44 true) [] 0 480 0 true 0 in
  let w := Game.mkWorld true 0 (Js.Fin 0) false 1000 (Some state) ∅ in
  exists jumped,
    Game.gameStateRef (Game.jump w) = Some jumped
    /\ Player.y (State.player (Game.update env cl fr (16 / 1000) jumped (Game.jump w)).1)
       < Game.groundY env (State.player state)
    /\ Player.vy (State.player (Game.update env cl fr (16 / 1000) jumped (Game.jump w)).1) < 0
    /\ Player.grounded
         (State.player (Game.update env cl fr (16 / 1000) jumped (Game.jump w)).1)
       = false.
Proof.
  intros env cl fr state w.
  apply (jump_lifts_player env cl fr (16 / 1000) w state);
    vm_compute; try reflexivity; discriminate.
Defined.

(** ** The ground pattern *)

Section Ground.

Import Game Canvas.

Lemma trunc_floor (q : Q) : 0 <= q -> Js.trunc q = Qfloor q.
Proof.
  destruct q as [n d]. unfold Qle, Js.trunc, Qfloor. cbn. intros H.
  apply Z.quot_div_nonneg; lia.
Qed.

(** The remainder of a non-negative number by a positive one. *)
Lemma rem_range (a b : Q) : 0 <= a -> 0 < b -> 0 <= Js.rem a b /\ Js.rem a b < b.
Proof.
  intros Ha Hb. unfold Js.rem.
  assert (Hq : 0 <= a / b).
  { unfold Qdiv. apply Qmult_le_0_compat; [exact Ha|].
    apply Qlt_le_weak, Qinv_lt_0_compat, Hb. }
  rewrite (trunc_floor _ Hq).
  pose proof (Qfloor_le (a / b)) as Hlo.
  pose proof (Qlt_floor (a / b)) as Hhi.
  rewrite inject_Z_plus in Hhi. change (inject_Z 1) with 1 in Hhi.
  set (f := inject_Z (Qfloor (a / b))) in *.
  assert (Hab : a == b * (a / b)) by (field; lra).
  assert (H1 : 0 <= b * (a / b - f)) by (apply Qmult_le_0_compat; lra).
  assert (H2 : 0 < b * (f + 1 - a / b)) by (apply Qmult_lt_0_compat; lra).
  split; lra.
Qed.

Lemma strip_in_view (env : Env) (k : nat) :
  (k < strip_count env)%nat <-> strip_x k < vw env + 60.
Proof.
  unfold strip_count, strip_x.
  set (q := (vw env + 120) / 60).
  assert (Hq : vw env + 120 == 60 * q) by (unfold q; field).
  assert (Hk : (k < Z.to_nat (Qceiling q))%nat <-> (Z.of_nat k < Qceiling q)%Z) by lia.
  rewrite Hk. split.
  - intros H.
    assert (Hle : inject_Z (Z.of_nat k) <= inject_Z (Qceiling q - 1))
      by (rewrite <- Zle_Qle; lia).
    pose proof (Qceiling_lt q) as Hc. lra.
  - intros H. rewrite Zlt_Qlt.
    pose proof (Qle_ceiling q) as Hc. lra.
Qed.

Lemma existsb_concat_map (A : Type) (f : DrawCmd -> bool) (g : A -> list DrawCmd)
    (l : list A) :
  (forall a, existsb f (g a) = false) -> existsb f (concat (map g l)) = false.
Proof.
  intros H. induction l as [|a l IH]; [reflexivity|].
  simpl. rewrite existsb_app, H, IH. reflexivity.
Qed.

End Ground.

(** X10.  The ground pattern offset stays inside one tile: from an offset
    that is not negative, an update with speed and [dt] not negative leaves
    [0 <= groundOffset < 60]. *)
Theorem ground_offset_wraps
    (env : Game.Env) (dt : Q) (rnd : Game.Random3) (state : State.t) :
  0 <= State.groundOffset state -> 0 <= State.speed state -> 0 <= dt ->
  0 <= State.groundOffset (Game.physics env dt rnd state)
  /\ State.groundOffset (Game.physics env dt rnd state) < 60.
Proof.
  intros Hg Hs Hdt.
  assert (Hgo : State.groundOffset (Game.physics env dt rnd state)
                = Js.rem (State.groundOffset state
                          + (State.speed state + Config.obstacleAcceleration * dt) * dt) 60).
  { unfold Game.physics. destruct (Game.should_spawn _ _); reflexivity. }
  rewrite Hgo. apply rem_range; [|reflexivity].
  unfold Config.obstacleAcceleration.
  assert (0 <= (State.speed state + 20 * dt) * dt).
  { apply Qmult_le_0_compat; [|exact Hdt].
    assert (0 <= 20 * dt) by (apply Qmult_le_0_compat; [discriminate | exact Hdt]). lra. }
  lra.
Qed.

Lemma ground_offset_wraps_witness :
  0 <= State.groundOffset
         (Game.physics (Game.mkEnv 800 420 1) (40 / 1000) (Game.mkRandom 0 0 0)
            (State.mk (Player.mk 80 280 0 44 44 true) [] 0 500 0 true 55))
  /\ State.groundOffset
       (Game.physics (Game.mkEnv 800 420 1) (40 / 1000) (Game.mkRandom 0 0 0)
          (State.mk (Player.mk 80 280 0 44 44 true) [] 0 500 0 true 55)) < 60.
Proof.
  apply (ground_offset_wraps (Game.mkEnv 800 420 1) (40 / 1000) (Game.mkRandom 0 0 0)
           (State.mk (Player.mk 80 280 0 44 44 true) [] 0 500 0 true 55));
    vm_compute; discriminate.
Defined.

(** X11.  The strips of the ground pattern are drawn at x = -60, 0, 60, ...
    for exactly the positions below [vw + 60]: the [k]-th position is drawn
    iff it is below that bound, so the loop stops at the first position that
    is not, and each drawn strip is one fill of a 40 by 8 bar. *)
Theorem ground_strips_cover_view (env : Game.Env) (state : State.t) :
  (forall k : nat, (k < Game.strip_count env)%nat <-> Game.strip_x k < Game.vw env + 60)
  /\ (forall k : nat, Game.strip_x (S k) == Game.strip_x k + 60)
  /\ Game.strip_x 0 == -60
  /\ Game.draw_background env state
     = firstn 11 (Game.draw_background env state)
       ++ concat (map (Game.draw_strip env) (seq 0 (Game.strip_count env)))
       ++ [Canvas.Restore]
  /\ (forall k : nat,
         Game.draw_strip env k
         = [Canvas.FillStyle (Canvas.Color "rgba(255,255,255,0.04)");
            Canvas.FillRect (Game.strip_x k) (Game.groundTop env + 18) 40 8]).
Proof.
  split; [apply strip_in_view|].
  split.
  { intros k. unfold Game.strip_x. rewrite Nat2Z.inj_succ, <- Z.add_1_r, inject_Z_plus.
    change (inject_Z 1) with 1. ring. }
  split; [reflexivity|].
  split; reflexivity.
Qed.

(** X12.  The frame carries the words Game Over exactly when the session is
    not running. *)
Theorem game_over_panel_iff_stopped (env : Game.Env) (cl : Game.Closure) (state : State.t) :
  existsb Game.shows_game_over (Game.draw env cl state) = negb (State.running state).
Proof.
  unfold Game.draw, Game.draw_background.
  rewrite !existsb_app.
  rewrite (existsb_concat_map nat), (existsb_concat_map Obstacle.t); try reflexivity.
  cbn [existsb Game.shows_game_over orb Game.draw_player Game.draw_ui].
  destruct (State.running state); reflexivity.
Qed.

(** * Further properties of the second page *)

Section ClassicsPass.

Import Classics Canvas.

(** Whatever every callback keeps, the pass over the obstacles keeps. *)
Lemma forEach_from_preserves (P : World * list DrawCmd -> Prop) (count k : nat)
    (acc : World * list DrawCmd) :
  (forall i o a, P a -> P (visit i o a)) -> P acc -> P (forEach_from k count acc).
Proof.
  intros Hv. revert k acc. induction count as [|count IH]; intros k acc H; [exact H|].
  simpl. apply IH. destruct (obstacles acc.1 !! k); auto.
Qed.

Lemma visit_player (i : nat) (o : Obstacle.t) (acc : World * list DrawCmd) :
  player (visit i o acc).1 = player acc.1
  /\ isJumping (visit i o acc).1 = isJumping acc.1
  /\ gameSpeed (visit i o acc).1 = gameSpeed acc.1.
Proof. unfold visit. destruct (off_left _); auto. Qed.

Lemma forEach_player (acc : World * list DrawCmd) :
  player (forEach acc).1 = player acc.1
  /\ isJumping (forEach acc).1 = isJumping acc.1.
Proof.
  unfold forEach.
  apply (forEach_from_preserves
           (fun a => player a.1 = player acc.1 /\ isJumping a.1 = isJumping acc.1));
    [|auto].
  intros i o a [H1 H2]. destruct (visit_player i o a) as (-> & -> & _). auto.
Qed.

Lemma loop_player (env : Env) (rnd : Q) (w : World) :
  running w = true ->
  player (loop env rnd w).1 = player (step_player env w)
  /\ isJumping (loop env rnd w).1 = isJumping (step_player env w).
Proof.
  intros Hr. unfold loop. rewrite Hr. cbn [negb fst player isJumping].
  match goal with |- context [forEach ?a] => destruct (forEach_player a) as [-> ->] end.
  cbn [fst]. unfold maybe_spawn. destruct (_ =? _)%nat; auto.
Qed.

(** A later callback does not reach the head of the array. *)
Lemma visit_keeps_head (i : nat) (o : Obstacle.t) (acc : World * list DrawCmd) :
  obstacles (visit (S i) o acc).1 !! 0%nat = obstacles acc.1 !! 0%nat.
Proof.
  unfold visit. destruct (off_left _); cbn [fst obstacles].
  - rewrite list_lookup_delete_lt by lia. apply list_lookup_insert_ne. lia.
  - apply list_lookup_insert_ne. lia.
Qed.

Lemma forEach_from_keeps_head (count k : nat) (acc : World * list DrawCmd) :
  obstacles (forEach_from (S k) count acc).1 !! 0%nat = obstacles acc.1 !! 0%nat.
Proof.
  revert k acc. induction count as [|count IH]; intros k acc; [reflexivity|].
  simpl. rewrite IH. destruct (obstacles acc.1 !! S k); [|reflexivity].
  apply visit_keeps_head.
Qed.

Lemma forEach_from_score (count k : nat) (acc : World * list DrawCmd) :
  (score acc.1 <= score (forEach_from k count acc).1)%Z.
Proof.
  destruct (forEach_from_tally count k acc) as [Ht Hl]. unfold tally in Ht. lia.
Qed.

End ClassicsPass.

(** X13.  In the second page a frame of a running game leaves the player on
    or above its ground line [height - 80]: a move that would pass the line
    ends on it with no vertical speed and clears [isJumping]; any other move
    adds the speed to [y] and then gravity to the speed. *)
Theorem classics_player_stays_above_ground
    (env : Classics.Env) (rnd : Q) (w : Classics.World) :
  Classics.running w = true ->
  Classics.y (Classics.player (Classics.loop env rnd w).1) <= Classics.height env - 80
  /\ (Classics.height env - 80 < Classics.y (Classics.player w) + Classics.dy (Classics.player w) ->
      Classics.y (Classics.player (Classics.loop env rnd w).1) = Classics.height env - 80
      /\ Classics.dy (Classics.player (Classics.loop env rnd w).1) = 0
      /\ Classics.isJumping (Classics.loop env rnd w).1 = false)
  /\ (Classics.y (Classics.player w) + Classics.dy (Classics.player w) <= Classics.height env - 80 ->
      Classics.y (Classics.player (Classics.loop env rnd w).1)
      = Classics.y (Classics.player w) + Classics.dy (Classics.player w)
      /\ Classics.dy (Classics.player (Classics.loop env rnd w).1)
         = Classics.dy (Classics.player w) + Classics.gravity (Classics.player w)
      /\ Classics.isJumping (Classics.loop env rnd w).1 = Classics.isJumping w).
Proof.
  intros Hr. destruct (loop_player env rnd w Hr) as [-> ->].
  unfold Classics.step_player.
  destruct (Js.gtb _ _) eqn:E; cbn.
  - apply JsFacts.gtb_gt in E. split; [apply Qle_refl|]. split; [auto|].
    intros H. lra.
  - apply JsFacts.gtb_le in E. split; [exact E|]. split; [|auto].
    intros H. lra.
Qed.

Lemma classics_player_stays_above_ground_witness :
  let env := Classics.mkEnv 800 500 in
  let w := Classics.mkWorld (Classics.mkPlayer 50 310 50 50 17 1) [] 6 3 true 0 true in
  Classics.y (Classics.player (Classics.loop env 0 w).1) <= Classics.height env - 80
  /\ (Classics.height env - 80 < Classics.y (Classics.player w) + Classics.dy (Classics.player w) ->
      Classics.y (Classics.player (Classics.loop env 0 w).1) = Classics.height env - 80
      /\ Classics.dy (Classics.player (Classics.loop env 0 w).1) = 0
      /\ Classics.isJumping (Classics.loop env 0 w).1 = false)
  /\ (Classics.y (Classics.player w) + Classics.dy (Classics.player w) <= Classics.height env - 80 ->
      Classics.y (Classics.player (Classics.loop env 0 w).1)
      = Classics.y (Classics.player w) + Classics.dy (Classics.player w)
      /\ Classics.dy (Classics.player (Classics.loop env 0 w).1)
         = Classics.dy (Classics.player w) + Classics.gravity (Classics.player w)
      /\ Classics.isJumping (Classics.loop env 0 w).1 = Classics.isJumping w).
Proof.
  intros env w. apply (classics_player_stays_above_ground env 0 w). reflexivity.
Defined.

(** X14.  Splicing inside the pass makes it skip an obstacle: when the first
    obstacle of the array is removed, the one behind it takes index 0, which
    the pass has already left, so at the end of the pass it is still there
    exactly as it was, not moved; the score has grown by at least 1. *)
Theorem classics_splice_skips_next
    (o1 o2 : Obstacle.t) (rest : list Obstacle.t)
    (w : Classics.World) (cmds : list Canvas.DrawCmd) :
  Classics.obstacles w = o1 :: o2 :: rest ->
  Classics.off_left (Classics.moved (Classics.gameSpeed w) o1) = true ->
  Classics.obstacles (Classics.forEach (w, cmds)).1 !! 0%nat = Some o2
  /\ (Classics.score w + 1 <= Classics.score (Classics.forEach (w, cmds)).1)%Z.
Proof.
  intros Hobs Hoff. unfold Classics.forEach. cbn [fst]. rewrite Hobs.
  change (length (o1 :: o2 :: rest)) with (S (S (length rest))).
  rewrite (forEach_from_step 0 _ _ o1) by (cbn [fst]; rewrite Hobs; reflexivity).
  set (acc := Classics.visit 0 o1 (w, cmds)).
  assert (Hacc : Classics.obstacles acc.1 = o2 :: rest
                 /\ Classics.score acc.1 = (Classics.score w + 1)%Z).
  { unfold acc, Classics.visit. cbn [fst]. rewrite Hoff, Hobs. cbn. auto. }
  destruct Hacc as [Ha Hs]. split.
  - rewrite forEach_from_keeps_head, Ha. reflexivity.
  - pose proof (forEach_from_score (S (length rest)) 1 acc). lia.
Qed.

Lemma classics_splice_skips_next_witness :
  let w := Classics.mkWorld (Classics.mkPlayer 50 320 50 50 0 1)
             [Obstacle.mk (-36) 350 40 40; Obstacle.mk 60 350 40 40] 6 7 true 3 false in
  Classics.obstacles (Classics.forEach (w, [])).1 !! 0%nat = Some (Obstacle.mk 60 350 40 40)
  /\ (Classics.score w + 1 <= Classics.score (Classics.forEach (w, [])).1)%Z.
Proof.
  intros w.
  apply (classics_splice_skips_next (Obstacle.mk (-36) 350 40 40) (Obstacle.mk 60 350 40 40)
           [] w []); reflexivity.
Defined.

(** X15.  In the second page a player standing on the ground (y = height - 80,
    50 high) meets a spawned obstacle (top at height - 50, 40 high) exactly
    when their horizontal extents overlap strictly: on the ground nothing
    but the horizontal position decides a hit. *)
Theorem classics_grounded_hit_by_x
    (env : Classics.Env) (rnd : Q) (p : Classics.PlayerC) (o : Obstacle.t) :
  Classics.y p == Classics.height env - 80 ->
  Classics.p_height p == 50 ->
  Obstacle.y o = Obstacle.y (Classics.spawnObstacle env rnd) ->
  Obstacle.height o = Obstacle.height (Classics.spawnObstacle env rnd) ->
  (Classics.overlaps p o = true <->
   Classics.x p < Obstacle.x o + Obstacle.width o
   /\ Obstacle.x o < Classics.x p + Classics.p_width p).
Proof.
  intros Hy Hh Hoy Hoh. rewrite overlaps_iff, Hoy, Hoh. cbn [Classics.spawnObstacle Obstacle.y Obstacle.height].
  split.
  - intros (H1 & H2 & _ & _). auto.
  - intros (H1 & H2). repeat split; try assumption; rewrite ?Hy, ?Hh; lra.
Qed.

Lemma classics_grounded_hit_by_x_witness :
  let env := Classics.mkEnv 800 500 in
  let p := Classics.mkPlayer 50 320 50 50 0 1 in
  let o := Classics.moved 708 (Classics.spawnObstacle env (1 # 2)) in
  Classics.overlaps p o = true <->
  Classics.x p < Obstacle.x o + Obstacle.width o
  /\ Obstacle.x o < Classics.x p + Classics.p_width p.
Proof.
  intros env p o.
  apply (classics_grounded_hit_by_x env (1 # 2) p o); reflexivity.
Defined.

(** * Input and canvas size *)

Section Input.

Import Game.

Lemma step_jump_pause_frozen (st : State.t) (wc : World * Closure) :
  gameStateRef wc.1 = Some st -> State.running st = false ->
  frozen st wc.1 (step Jump wc) /\ frozen st wc.1 (step TogglePause wc).
Proof.
  intros Hs Hover.
  split; apply step_frozen; try assumption; try reflexivity; unfold frozen; auto.
Qed.

Lemma frozen_trans (st : State.t) (w0 : World) (wc1 wc2 : World * Closure) :
  frozen st w0 wc1 -> frozen st wc1.1 wc2 -> frozen st w0 wc2.
Proof.
  intros (A1 & A2 & A3 & A4 & A5) (B1 & B2 & B3 & B4 & B5).
  unfold frozen. rewrite B2, B3, B4, B5. auto.
Qed.

End Input.

(** X16.  After game over the keyboard and the touch screen can only
    restart: a touch, or any key other than r and R (space and the up arrow
    included, and p and P, which still toggle the pause flag), leaves the
    session, the displayed score and run flag, the high score and the store
    as they are; r and R install the default session. *)
Theorem only_restart_leaves_game_over
    (e : Game.KeyEvent) (wc : Game.World * Game.Closure) (st : State.t) :
  Game.gameStateRef wc.1 = Some st ->
  State.running st = false ->
  (Game.key e <> "r" -> Game.key e <> "R" ->
   Game.gameStateRef (Game.handleKey e wc).1.1 = Some st
   /\ Game.running (Game.handleKey e wc).1.1 = Game.running wc.1
   /\ Game.score (Game.handleKey e wc).1.1 = Game.score wc.1
   /\ Game.highScore (Game.handleKey e wc).1.1 = Game.highScore wc.1
   /\ Game.localStorage (Game.handleKey e wc).1.1 = Game.localStorage wc.1)
  /\ (Game.key e = "r" \/ Game.key e = "R" ->
      Game.gameStateRef (Game.handleKey e wc).1.1 = Some Game.resetGameState
      /\ Game.running (Game.handleKey e wc).1.1 = true
      /\ Game.score (Game.handleKey e wc).1.1 = 0%Z)
  /\ (Game.gameStateRef (Game.handleTouch wc).1 = Some st
      /\ Game.running (Game.handleTouch wc).1 = Game.running wc.1
      /\ Game.score (Game.handleTouch wc).1 = Game.score wc.1
      /\ Game.highScore (Game.handleTouch wc).1 = Game.highScore wc.1
      /\ Game.localStorage (Game.handleTouch wc).1 = Game.localStorage wc.1).
Proof.
  intros Hs Hover.
  destruct (step_jump_pause_frozen st wc Hs Hover) as [Hj _].
  assert (H1 : Game.frozen st wc.1
                 (if String.eqb (Game.code e) "Space" || String.eqb (Game.code e) "ArrowUp"
                  then Game.step Game.Jump wc else wc)).
  { destruct (_ || _); [exact Hj | unfold Game.frozen; auto]. }
  split; [|split].
  - intros Hr1 Hr2. apply String.eqb_neq in Hr1. apply String.eqb_neq in Hr2.
    unfold Game.handleKey. cbn [fst]. rewrite Hr1, Hr2. cbn [orb].
    set (wc1 := if _ || _ then _ else wc) in *.
    destruct (String.eqb (Game.key e) "p" || String.eqb (Game.key e) "P"); [|exact H1].
    destruct H1 as (A1 & A2 & A3 & A4 & A5).
    destruct (step_jump_pause_frozen st wc1 A1 Hover) as [_ Hp].
    apply (frozen_trans st wc.1 wc1); [unfold Game.frozen; auto | exact Hp].
  - intros Hr. unfold Game.handleKey. cbn [fst].
    assert (Hb : String.eqb (Game.key e) "r" || String.eqb (Game.key e) "R" = true).
    { destruct Hr as [-> | ->]; reflexivity. }
    rewrite Hb.
    assert (Hp : String.eqb (Game.key e) "p" || String.eqb (Game.key e) "P" = false).
    { destruct Hr as [-> | ->]; reflexivity. }
    rewrite Hp. cbn. auto.
  - exact Hj.
Qed.

Lemma only_restart_leaves_game_over_witness :
  let st := State.mk (Player.mk 80 280 0 44 44 true) [Obstacle.mk 100 0 40 60]
              1160 520 30 false 12 in
  let w := Game.mkWorld false 30 (Js.Fin 30) false 4000 (Some st)
             {[ "classic-highscore" := "30" ]} in
  let wc := (w, Game.capture w) in
  let e := Game.mkKey "Space" " " in
  (Game.key e <> "r" -> Game.key e <> "R" ->
   Game.gameStateRef (Game.handleKey e wc).1.1 = Some st
   /\ Game.running (Game.handleKey e wc).1.1 = Game.running wc.1
   /\ Game.score (Game.handleKey e wc).1.1 = Game.score wc.1
   /\ Game.highScore (Game.handleKey e wc).1.1 = Game.highScore wc.1
   /\ Game.localStorage (Game.handleKey e wc).1.1 = Game.localStorage wc.1)
  /\ (Game.key e = "r" \/ Game.key e = "R" ->
      Game.gameStateRef (Game.handleKey e wc).1.1 = Some Game.resetGameState
      /\ Game.running (Game.handleKey e wc).1.1 = true
      /\ Game.score (Game.handleKey e wc).1.1 = 0%Z)
  /\ (Game.gameStateRef (Game.handleTouch wc).1 = Some st
      /\ Game.running (Game.handleTouch wc).1 = Game.running wc.1
      /\ Game.score (Game.handleTouch wc).1 = Game.score wc.1
      /\ Game.highScore (Game.handleTouch wc).1 = Game.highScore wc.1
      /\ Game.localStorage (Game.handleTouch wc).1 = Game.localStorage wc.1).
Proof.
  intros st w wc e.
  apply (only_restart_leaves_game_over e wc st); reflexivity.
Defined.

(** X17.  After [resize] both canvas sizes are whole numbers from 0 to
    [2^31 - 1].  When the scaled client width [floor (floor clientWidth * dpr)]
    is at most [2^31 - 1], the width is the larger of 320 and that value, so
    never below 320; likewise the height with 240.  A larger value is taken
    modulo [2^32] and, when the result is still above [2^31 - 1], replaced
    by the default, 300 for the width and 150 for the height. *)
Theorem resize_bounds (clientWidth clientHeight devicePixelRatio : Q) :
  let dpr := Js.or_else devicePixelRatio 1 in
  let sw := Js.floor (inject_Z (Js.floor clientWidth) * dpr) in
  let sh := Js.floor (inject_Z (Js.floor clientHeight) * dpr) in
  let env := Game.resize clientWidth clientHeight devicePixelRatio in
  (exists n : Z, Game.canvas_width env = inject_Z n /\ (0 <= n <= 2147483647)%Z)
  /\ (exists m : Z, Game.canvas_height env = inject_Z m /\ (0 <= m <= 2147483647)%Z)
  /\ ((sw <= 2147483647)%Z ->
      Game.canvas_width env = inject_Z (Z.max 320 sw) /\ 320 <= Game.canvas_width env)
  /\ ((sh <= 2147483647)%Z ->
      Game.canvas_height env = inject_Z (Z.max 240 sh) /\ 240 <= Game.canvas_height env)
  /\ ((2147483647 < sw mod 2 ^ 32)%Z -> (320 <= sw)%Z -> Game.canvas_width env = 300)
  /\ ((2147483647 < sh mod 2 ^ 32)%Z -> (240 <= sh)%Z -> Game.canvas_height env = 150).
Proof.
  intros dpr sw sh env. unfold env, Game.resize. fold dpr. fold sw. fold sh.
  cbn [Game.canvas_width Game.canvas_height]. unfold Game.set_canvas_size.
  assert (Hmod : forall v : Z, (0 <= v mod 2 ^ 32 < 2 ^ 32)%Z)
    by (intros v; apply Z.mod_pos_bound; lia).
  assert (Hsmall : forall c v : Z,
             (0 <= c <= 2147483647)%Z -> (v <= 2147483647)%Z ->
             (Z.max c v mod 2 ^ 32 = Z.max c v)%Z /\ (Z.max c v <= 2147483647)%Z).
  { intros c v Hc Hv. split; [apply Z.mod_small|]; lia. }
  assert (Hfit : forall c v d : Z,
             (0 <= c <= 2147483647)%Z -> (v <= 2147483647)%Z ->
             inject_Z (if (Z.max c v mod 2 ^ 32 <=? 2147483647)%Z
                       then Z.max c v mod 2 ^ 32 else d)
             = inject_Z (Z.max c v)).
  { intros c v d Hc Hv. destruct (Hsmall c v Hc Hv) as [-> Hle].
    apply Z.leb_le in Hle. rewrite Hle. reflexivity. }
  assert (Hover : forall c v d : Z,
             (2147483647 < v mod 2 ^ 32)%Z -> (c <= v)%Z ->
             inject_Z (if (Z.max c v mod 2 ^ 32 <=? 2147483647)%Z
                       then Z.max c v mod 2 ^ 32 else d)
             = inject_Z d).
  { intros c v d Hv Hc. rewrite Z.max_r by assumption.
    apply Z.leb_gt in Hv. rewrite Hv. reflexivity. }
  split; [|split; [|split; [|split; [|split]]]].
  - eexists. split; [reflexivity|].
    pose proof (Hmod (Z.max 320 sw)).
    destruct (_ <=? _)%Z eqn:E; [apply Z.leb_le in E|]; lia.
  - eexists. split; [reflexivity|].
    pose proof (Hmod (Z.max 240 sh)).
    destruct (_ <=? _)%Z eqn:E; [apply Z.leb_le in E|]; lia.
  - intros Hs. rewrite Hfit by (try assumption; lia). split; [reflexivity|].
    change 320 with (inject_Z 320). rewrite <- Zle_Qle. lia.
  - intros Hs. rewrite Hfit by (try assumption; lia). split; [reflexivity|].
    change 240 with (inject_Z 240). rewrite <- Zle_Qle. lia.
  - intros H1 H2. apply Hover; assumption.
  - intros H1 H2. apply Hover; assumption.
Qed.

(** * The first frame of a session *)

Section FirstFrame.

Import Game.

Lemma frame_dt_first (ts : Q) : frame_dt ts 0 == 0.
Proof.
  unfold frame_dt. change (Qeq_bool 0 0) with true. cbv iota.
  rewrite Q.min_r by lra. field.
Qed.

Lemma physics_fresh (env : Env) (dt : Q) (rnd : Random3) :
  dt == 0 ->
  0 < groundY env (State.player resetGameState) ->
  let st := physics env dt rnd resetGameState in
  Player.y (State.player st) == 0
  /\ Player.vy (State.player st) == 0
  /\ Player.grounded (State.player st) = false
  /\ Player.x (State.player st) = 80
  /\ Player.width (State.player st) = 44
  /\ State.speed st == 480
  /\ State.score st = 0%Z
  /\ State.running st = true
  /\ State.obstacles st = [new_obstacle (canvas_width env) rnd].
Proof.
  intros Hdt Hg st. unfold st.
  assert (Hsc : score_gain (State.speed resetGameState + Config.obstacleAcceleration * dt) dt
                = 0%Z).
  { unfold score_gain, Js.floor. rewrite (Qfloor_comp _ 0); [reflexivity|].
    rewrite Hdt. ring. }
  rewrite physics_player, physics_speed, physics_score, physics_running, Hsc.
  pose proof (physics_obstacles env dt rnd resetGameState) as Hobs. cbv zeta in Hobs.
  rewrite Hobs. cbn [resetGameState State.player State.obstacles State.speed
                     State.score State.running map List.filter app].
  assert (Hy : integrate_y dt (Player.mk Config.player_startX 0 0 Config.player_w
                                 Config.player_h false) == 0).
  { unfold integrate_y, integrate_vy. cbn. rewrite Hdt. reflexivity. }
  assert (Hb : Js.geb (integrate_y dt (Player.mk Config.player_startX 0 0 Config.player_w
                                         Config.player_h false))
                 (groundY env (Player.mk Config.player_startX 0 0 Config.player_w
                                 Config.player_h false)) = false).
  { apply JsFacts.geb_lt. rewrite Hy. exact Hg. }
  unfold step_player. rewrite Hb. cbn.
  repeat split; try reflexivity.
  - exact Hy.
  - unfold integrate_vy. cbn. rewrite Hdt. reflexivity.
  - rewrite Hdt. reflexivity.
Qed.

End FirstFrame.

(** X18.  The first frame after a restart advances no time: with the loop not
    paused, a canvas whose ground line is below the top and a random gap in
    [0, 1), the frame after [restart] leaves the player where the reset put
    it (y = 0, no speed), the speed at 480 and the score at 0, spawns exactly
    one obstacle, and the session keeps running. *)
Theorem first_frame_after_restart
    (env : Game.Env) (cl : Game.Closure) (fr : Game.Frame) (w : Game.World) :
  Game.c_paused cl = false ->
  0 <= Game.canvas_width env ->
  Game.unit_interval (Game.rnd_gap (Game.random fr)) ->
  0 < Game.groundY env (State.player Game.resetGameState) ->
  exists st,
    Game.gameStateRef (Game.loop env cl fr (Game.restart w)).1 = Some st
    /\ Player.y (State.player st) == 0
    /\ Player.vy (State.player st) == 0
    /\ Player.grounded (State.player st) = false
    /\ State.speed st == 480
    /\ State.score st = 0%Z
    /\ State.running st = true
    /\ State.obstacles st = [Game.new_obstacle (Game.canvas_width env) (Game.random fr)].
Proof.
  intros Hp Hcw Hgap Hg.
  assert (E : negb (Game.c_paused cl)
              && State.running (default Game.resetGameState
                                  (Game.gameStateRef (Game.restart w))) = true)
    by (rewrite Hp; reflexivity).
  destruct (loop_world env cl fr (Game.restart w) E) as [H1 _]. cbv zeta in H1.
  eexists. split; [exact H1|].
  cbn [Game.restart Game.gameStateRef Game.lastTimeRef default from_option id].
  set (dt := Game.frame_dt (Game.timestamp fr) 0).
  assert (Hdt : dt == 0) by apply frame_dt_first.
  destruct (physics_fresh env dt (Game.random fr) Hdt Hg)
    as (F1 & F2 & F3 & F4 & F5 & F6 & F7 & F8 & F9).
  unfold Game.update. rewrite detect_cases. cbn [fst snd].
  assert (Hno : existsb (Game.hits env (State.player
                           (Game.physics env dt (Game.random fr) Game.resetGameState)))
                  (State.obstacles
                     (Game.physics env dt (Game.random fr) Game.resetGameState)) = false).
  { rewrite F9. cbn [existsb]. rewrite orb_false_r.
    apply not_true_is_false. rewrite hits_iff. intros (Hx & _).
    rewrite F4, F5 in Hx. unfold Game.new_obstacle in Hx. cbn [Obstacle.x] in Hx.
    destruct (spawn_gap_range _ Hgap) as [Hlo _].
    change Config.obstacleMinGap with 360 in Hlo. lra. }
  rewrite Hno. cbn [fst]. auto 10.
Qed.

Lemma first_frame_after_restart_witness :
  let env := Game.mkEnv 800 420 1 in
  let cl := Game.mkClosure false 0 (Js.Fin 0) in
  let fr := Game.mkFrame 5000 (Game.mkRandom (1 # 2) (1 # 2) (1 # 2)) true in
  let w := Game.mkWorld false 30 (Js.Fin 30) false 4000
             (Some (State.mk (Player.mk 80 280 0 44 44 true) [Obstacle.mk 100 0 40 60]
                      1160 520 30 false 12)) ∅ in
  exists st,
    Game.gameStateRef (Game.loop env cl fr (Game.restart w)).1 = Some st
    /\ Player.y (State.player st) == 0
    /\ Player.vy (State.player st) == 0
    /\ Player.grounded (State.player st) = false
    /\ State.speed st == 480
    /\ State.score st = 0%Z
    /\ State.running st = true
    /\ State.obstacles st = [Game.new_obstacle (Game.canvas_width env) (Game.random fr)].
Proof.
  intros env cl fr w.
  apply (first_frame_after_restart env cl fr w).
  - reflexivity.
  - vm_compute. discriminate.
  - split; vm_compute; [discriminate | reflexivity].
  - vm_compute. reflexivity.
Defined.
